(** * HttpConnector: a shallow embedding of [src/lib/connectors/http.js]

    The connector owns one socket pool (a Node [http.Agent] or an
    [agentkeepalive] agent) for one host, drains that pool when the
    connection status becomes ["closed"], and runs requests whose outcome
    is handed to a completion callback wrapped in [_.once].

    JavaScript values that the code inspects dynamically (truthiness,
    [instanceof Error], [||]) are kept as a small value type; the event
    loop is a list of events delivered one at a time to the handlers the
    code has attached. *)

From Stdlib Require Import ZArith NArith List String Ascii Bool Lia.
From stdpp Require Import base option list strings gmap.
Import ListNotations.

Local Open Scope string_scope.
Local Open Scope list_scope.
Local Open Scope Z_scope.

(** ** JavaScript values *)

(** Text whose content is arbitrary Unicode (request and response bodies)
    is a sequence of UTF-16 code units, as a JavaScript string is.
    Protocol names, header names and header values are plain strings of
    8-bit code units. *)
Definition JsString : Type := list N.

Definition js (s : string) : JsString :=
  List.map N_of_ascii (list_ascii_of_string s).

Inductive JsVal : Type :=
| VUndefined
| VNull
| VBool (b : bool)
| VNum (n : Z)
| VInfinity
| VStr (s : JsString)
| VError (message : string)          (* an instance of Error *)
| VObj (o : gmap string string).     (* a plain object of string fields *)

(** ToBoolean. *)
Definition truthy (v : JsVal) : bool :=
  match v with
  | VUndefined | VNull => false
  | VBool b => b
  | VNum n => negb (n =? 0)
  | VInfinity => true
  | VStr s => match s with [] => false | _ => true end
  | VError _ | VObj _ => true
  end.

(** [v instanceof Error]. *)
Definition instanceof_Error (v : JsVal) : bool :=
  match v with VError _ => true | _ => false end.

(** [a || b]. *)
Definition js_or (a b : JsVal) : JsVal := if truthy a then a else b.

(** [s || d] for a property that holds a string or is undefined. *)
Definition str_or (s : option string) (d : string) : string :=
  match s with
  | Some (String c r) => String c r
  | _ => d
  end.

Definition text_truthy (s : option JsString) : bool :=
  match s with Some (_ :: _) => true | _ => false end.

Definition dquote : string := String (ascii_of_nat 34) EmptyString.

(** [String.prototype.toLowerCase] on 8-bit code units: A-Z and the
    Latin-1 capitals (0xC0-0xDE except 0xD7) move down by 0x20. *)
Definition lower_ascii (c : ascii) : ascii :=
  let n := N_of_ascii c in
  if ((65 <=? n) && (n <=? 90))%N then ascii_of_N (n + 32)
  else if ((192 <=? n) && (n <=? 222) && negb (n =? 215))%N
       then ascii_of_N (n + 32)
  else c.

Fixpoint toLowerCase (s : string) : string :=
  match s with
  | EmptyString => EmptyString
  | String c r => String (lower_ascii c) (toLowerCase r)
  end.

(** ** Hosts, configuration and agents *)

Definition Headers : Type := gmap string string.
Definition Query : Type := list (string * string).

(** The host object of the client ([lib/host.js]); the connector only
    reads these attributes and calls the two accessors. *)
Record Host : Type := mkHost {
  protocol : string;
  host : string;
  port : Z;
  path : option string;
  ssl : option (list (string * JsVal));
  getHeaders : option (list (string * string)) -> list (string * string);
  getQuery : option Query -> option Query
}.

(** The options read from [config]; an absent property is [VUndefined]. *)
Record PoolOptions : Type := mkPoolOptions {
  maxSockets : JsVal;
  keepAlive : JsVal;
  keepAliveInterval : JsVal;
  keepAliveMaxFreeSockets : JsVal;
  keepAliveFreeSocketTimeout : JsVal;
  forever : JsVal
}.

Definition Socket : Type := nat.

Inductive AgentClass : Type :=
| HttpAgent            (* require('http').Agent *)
| HttpsAgent           (* require('https').Agent *)
| KeepAliveAgent       (* require('agentkeepalive') *)
| KeepAliveHttpsAgent  (* require('agentkeepalive').HttpsAgent *)
| CustomAgent.         (* whatever config.createNodeAgent built *)

(** [url.parse(host)], kept symbolic: the parsed form of a host key. *)
Inductive Url : Type :=
| parseUrl (href : string).

(** The agent as far as the connector touches it.  [sockets] and
    [freeSockets] are objects from a host key to an array of sockets;
    they are association lists because [_.each] walks them in insertion
    order.  An array slot may hold a falsy value ([None]).  The agent
    class comes from Node or from [agentkeepalive]: what its
    [removeSocket] does to these objects is not in the sources at hand,
    so the calls it receives are kept, in order, in [removeSocketCalls]. *)
Record Agent : Type := mkAgent {
  agentClass : AgentClass;
  agentConfig : list (string * JsVal);
  minSockets : JsVal;
  agentMaxSockets : JsVal;
  requests : list (string * list nat);
  sockets : list (string * list (option Socket));
  freeSockets : list (string * list (option Socket));
  removeSocketCalls : list (Socket * Url)
}.

(** [createNodeAgent] is taken as far as it builds an agent from the
    host and the options; an override that throws, or that uses the
    connector it is handed to register listeners of its own, is not
    described by this type. *)
Record Config : Type := mkConfig {
  options : PoolOptions;
  createNodeAgent : option (Host -> PoolOptions -> Agent)
}.

Inductive JsError : Type :=
| TypeError (message : string).

Inductive Result (A : Type) : Type :=
| Ok (a : A)
| Throw (e : JsError).
Arguments Ok {A} a.
Arguments Throw {A} e.

(** ** The protocol table *)

Inductive Hand : Type :=
| HttpModule
| HttpsModule
| Inherited (name : string).  (* a property of Object.prototype *)

(** [handles] is an object literal, so besides its own keys [http] and
    [https] a property read reaches what every object inherits from
    [Object.prototype]; each of those is a function or an object, hence
    truthy. *)
Definition object_prototype_names : list string :=
  [ "constructor"; "__proto__"; "hasOwnProperty"; "isPrototypeOf";
    "propertyIsEnumerable"; "toLocaleString"; "toString"; "valueOf";
    "__defineGetter__"; "__defineSetter__"; "__lookupGetter__";
    "__lookupSetter__" ].

Definition handles (key : string) : option Hand :=
  if String.eqb key "http" then Some HttpModule
  else if String.eqb key "https" then Some HttpsModule
  else if existsb (String.eqb key) object_prototype_names
       then Some (Inherited key)
  else None.

(** [_.keys(handles).join(', ')]: own enumerable keys only. *)
Definition handles_keys : string := "http, https".

(** [this.hand.Agent]. *)
Definition hand_Agent (h : Hand) : option AgentClass :=
  match h with
  | HttpModule => Some HttpAgent
  | HttpsModule => Some HttpsAgent
  | Inherited _ => None
  end.

(** ** The connector *)

Inductive Listener : Type :=
| BoundOnStatusSet.   (* this.bound.onStatusSet *)

Record HttpConnector : Type := mkConnector {
  c_host : Host;
  hand : Hand;
  useSsl : bool;
  agent : Agent;
  statusSetListeners : list Listener   (* listeners of 'status set' *)
}.

(** [_.defaults(config || {}, {...})]: a default fills a property only
    where it is [undefined]. *)
Definition default_to (v d : JsVal) : JsVal :=
  match v with VUndefined => d | _ => v end.

Definition no_options : PoolOptions :=
  mkPoolOptions VUndefined VUndefined VUndefined VUndefined VUndefined
                VUndefined.

Definition defaults (o : PoolOptions) : PoolOptions :=
  mkPoolOptions
    (default_to (maxSockets o) VInfinity)
    (default_to (keepAlive o) (VBool true))
    (default_to (keepAliveInterval o) (VNum 1000))
    (default_to (keepAliveMaxFreeSockets o) (VNum 256))
    (default_to (keepAliveFreeSocketTimeout o) (VNum 60000))
    (forever o).

(** [_.merge(agentConfig, this.host.ssl)]: a source property overrides
    the destination, except that an [undefined] source value is skipped
    when the destination already has the key. *)
Fixpoint assoc_get {V : Type} (k : string) (l : list (string * V)) : option V :=
  match l with
  | [] => None
  | (k', v) :: r => if String.eqb k k' then Some v else assoc_get k r
  end.

Fixpoint assoc_set {V : Type} (k : string) (v : V) (l : list (string * V))
  : list (string * V) :=
  match l with
  | [] => [(k, v)]
  | (k', v') :: r =>
      if String.eqb k k' then (k', v) :: r else (k', v') :: assoc_set k v r
  end.

Definition merge_one (dst : list (string * JsVal)) (kv : string * JsVal)
  : list (string * JsVal) :=
  match snd kv, assoc_get (fst kv) dst with
  | VUndefined, Some _ => dst
  | v, _ => assoc_set (fst kv) v dst
  end.

Definition merge (dst : list (string * JsVal))
    (src : option (list (string * JsVal))) : list (string * JsVal) :=
  match src with
  | None => dst
  | Some s => fold_left merge_one s dst
  end.

Definition makeAgentConfig (h : Host) (ssl_on : bool) (o : PoolOptions)
  : list (string * JsVal) :=
  let agentConfig :=
    [ ("keepAlive", keepAlive o);
      ("keepAliveMsecs", keepAliveInterval o);
      ("maxSockets", maxSockets o);
      ("maxFreeSockets", keepAliveMaxFreeSockets o);
      ("freeSocketKeepAliveTimeout", keepAliveFreeSocketTimeout o) ] in
  if ssl_on then merge agentConfig (ssl h) else agentConfig.

(** [new Agent(agentConfig)]: an empty pool whose limit is the configured
    [maxSockets], or unbounded when that is falsy. *)
Definition new_Agent (cls : AgentClass) (cfg : list (string * JsVal)) : Agent :=
  mkAgent cls cfg VUndefined
    (js_or (match assoc_get "maxSockets" cfg with
            | Some v => v
            | None => VUndefined
            end) VInfinity)
    [] [] [] [].

(** [HttpConnector.prototype.createAgent]: the agent and the listeners it
    registered on the connector. *)
Definition createAgent (h : Host) (hd : Hand) (ssl_on : bool) (o : PoolOptions)
  : Result (Agent * list Listener) :=
  let Agent0 := hand_Agent hd in
  let o1 :=
    if truthy (forever o)
    then mkPoolOptions (maxSockets o) (forever o) (keepAliveInterval o)
           (keepAliveMaxFreeSockets o) (keepAliveFreeSocketTimeout o)
           (forever o)
    else o in
  let '(Agent1, listeners) :=
    if truthy (keepAlive o1)
    then (Some (if ssl_on then KeepAliveHttpsAgent else KeepAliveAgent),
          [BoundOnStatusSet])
    else (Agent0, []) in
  match Agent1 with
  | Some cls => Ok (new_Agent cls (makeAgentConfig h ssl_on o1), listeners)
  | None => Throw (TypeError "Agent is not a constructor")
  end.

(** [new HttpConnector(host, config)].  The base constructor
    ([ConnectionAbstract], in [lib/connection.js]) stores the host and
    sets up the event emitter; the rest is the body of the function. *)
Definition construct (h : Host) (config : option Config) : Result HttpConnector :=
  match handles (protocol h) with
  | None =>
      Throw (TypeError ("Invalid protocol " +:+ dquote +:+ protocol h +:+ dquote
                        +:+ ", expected one of " +:+ handles_keys))
  | Some hd =>
      let ssl_on := String.eqb (protocol h) "https" in
      let o := defaults (match config with
                         | Some c => options c
                         | None => no_options
                         end) in
      match (match config with Some c => createNodeAgent c | None => None end) with
      | Some factory => Ok (mkConnector h hd ssl_on (factory h o) [])
      | None =>
          match createAgent h hd ssl_on o with
          | Ok (a, ls) => Ok (mkConnector h hd ssl_on a ls)
          | Throw e => Throw e
          end
      end
  end.

(** ** Draining the pool: [onStatusSet] *)

(** [collectSockets] run by [_.each] over one of the agent's objects:
    every truthy array entry is pushed together with its host key. *)
Definition collectSockets (pool : list (string * list (option Socket)))
  : list (string * Socket) :=
  flat_map (fun entry =>
              flat_map (fun s => match s with
                                 | Some s => [(fst entry, s)]
                                 | None => []
                                 end) (snd entry)) pool.

(** [agent.removeSocket(socket, options)]: a call into the agent
    library, recorded with its arguments. *)
Definition removeSocket (a : Agent) (s : Socket) (u : Url) : Agent :=
  mkAgent (agentClass a) (agentConfig a) (minSockets a) (agentMaxSockets a)
    (requests a) (sockets a) (freeSockets a)
    (removeSocketCalls a ++ [(s, u)]).

(** The pool and the sockets on which [destroy()] has been called, in
    call order. *)
Definition PoolWorld : Type := (Agent * list Socket)%type.

Definition remove_and_destroy (w : PoolWorld) (args : string * Socket) : PoolWorld :=
  let hostkey := fst args in
  let socket := snd args in
  (removeSocket (fst w) socket (parseUrl hostkey), snd w ++ [socket]).

Definition onStatusSet (status : string) (w : PoolWorld) : PoolWorld :=
  if String.eqb status "closed" then
    let a := fst w in
    let a1 := mkAgent (agentClass a) (agentConfig a) (VNum 0) (VNum 0) []
                (sockets a) (freeSockets a) (removeSocketCalls a) in
    let toRemove := collectSockets (sockets a1) ++ collectSockets (freeSockets a1) in
    fold_left remove_and_destroy toRemove (a1, snd w)
  else w.

Definition run_listener (l : Listener) (status : string) (w : PoolWorld) : PoolWorld :=
  match l with
  | BoundOnStatusSet => onStatusSet status w
  end.

(** Modelled from the spec: the lifecycle notification channel of the
    connection base class ([lib/connection.js], not part of the sources at
    hand): a status change is delivered to every listener registered for
    ['status set']. *)
Definition notifyStatus (c : HttpConnector) (status : string) (destroyed : list Socket)
  : HttpConnector * list Socket :=
  let w := fold_left (fun w l => run_listener l status w)
             (statusSetListeners c) (agent c, destroyed) in
  (mkConnector (c_host c) (hand c) (useSsl c) (fst w) (statusSetListeners c), snd w).

(** Every socket the pool tracks: in use first, then idle. *)
Definition tracked (a : Agent) : list Socket :=
  List.map snd (collectSockets (sockets a) ++ collectSockets (freeSockets a)).

(** The [removeSocket] calls a drain of the pool makes: one for each
    tracked socket, with the parsed host key it is listed under. *)
Definition removals (a : Agent) : list (Socket * Url) :=
  List.map (fun p => (snd p, parseUrl (fst p)))
    (collectSockets (sockets a) ++ collectSockets (freeSockets a)).

(** ** UTF-8 length of a request body *)

Definition is_high_surrogate (u : N) : bool := ((55296 <=? u) && (u <=? 56319))%N.
Definition is_low_surrogate (u : N) : bool := ((56320 <=? u) && (u <=? 57343))%N.

Definition replacement_character : list N := [239; 191; 189]%N.

Definition utf8_of_code_point (cp : N) : list N :=
  (if cp <? 128 then [cp]
   else if cp <? 2048 then [192 + cp / 64; 128 + cp mod 64]
   else if cp <? 65536
        then [224 + cp / 4096; 128 + (cp / 64) mod 64; 128 + cp mod 64]
   else [240 + cp / 262144; 128 + (cp / 4096) mod 64;
         128 + (cp / 64) mod 64; 128 + cp mod 64])%N.

(** The bytes [Buffer.from(s, 'utf8')] holds: a surrogate pair becomes one
    four-byte sequence, a lone surrogate the replacement character. *)
Fixpoint utf8_encode (s : JsString) : list N :=
  match s with
  | [] => []
  | u :: rest =>
      if is_high_surrogate u then
        match rest with
        | l :: rest' =>
            if is_low_surrogate l
            then utf8_of_code_point (65536 + (u - 55296) * 1024 + (l - 56320))%N
                   ++ utf8_encode rest'
            else replacement_character ++ utf8_encode rest
        | [] => replacement_character
        end
      else if is_low_surrogate u then replacement_character ++ utf8_encode rest
      else utf8_of_code_point u ++ utf8_encode rest
  end.

(** [Buffer.byteLength(s, 'utf8')]. *)
Definition byteLength (s : JsString) : Z := Z.of_nat (List.length (utf8_encode s)).

(** ** Requests *)

Record Params : Type := mkParams {
  p_method : option string;
  p_path : option string;
  p_query : option Query;
  p_headers : option (list (string * string));
  p_body : option JsString
}.

Definition no_params : Params := mkParams None None None None None.

Record ReqParams : Type := mkReqParams {
  rp_method : string;
  rp_protocol : string;
  rp_hostname : string;
  rp_port : Z;
  rp_path : string;
  rp_headers : list (string * string);
  rp_agent : Agent
}.

Inductive HeaderValue : Type :=
| HStr (s : string)
| HNum (n : Z).

(** The [http.ClientRequest] as far as this code drives it.  Node keeps
    the outgoing headers under their lower-cased names. *)
Record ClientRequest : Type := mkClientRequest {
  cr_options : ReqParams;
  cr_headers : gmap string (string * HeaderValue);
  cr_noDelay : bool;
  cr_socketKeepAlive : bool;
  cr_ended : bool;
  cr_body : option JsString;
  cr_aborted : bool
}.

(** What the Node runtime and its libraries contribute: [querystring],
    [zlib], the UTF-8 string decoder behind [setEncoding('utf8')], the way
    a readable stream cuts decoded text into ['data'] events, and
    [ClientRequest.prototype.abort]. *)
Record Runtime : Type := mkRuntime {
  qs_stringify : Query -> string;
  zlib_unzip : list Byte.byte -> JsVal + list Byte.byte;
  utf8_decode : list Byte.byte -> JsString;
  chunked : JsString -> list JsString;
  abort : ClientRequest -> ClientRequest
}.

Definition setHeader (name : string) (v : HeaderValue) (r : ClientRequest)
  : ClientRequest :=
  mkClientRequest (cr_options r)
    (<[toLowerCase name := (name, v)]> (cr_headers r))
    (cr_noDelay r) (cr_socketKeepAlive r) (cr_ended r) (cr_body r)
    (cr_aborted r).

Definition setNoDelay (b : bool) (r : ClientRequest) : ClientRequest :=
  mkClientRequest (cr_options r) (cr_headers r) b (cr_socketKeepAlive r)
    (cr_ended r) (cr_body r) (cr_aborted r).

Definition setSocketKeepAlive (b : bool) (r : ClientRequest) : ClientRequest :=
  mkClientRequest (cr_options r) (cr_headers r) (cr_noDelay r) b
    (cr_ended r) (cr_body r) (cr_aborted r).

(** [request.end(body)] and [request.end()]. *)
Definition end_request (body : option JsString) (r : ClientRequest)
  : ClientRequest :=
  mkClientRequest (cr_options r) (cr_headers r) (cr_noDelay r)
    (cr_socketKeepAlive r) true body (cr_aborted r).

(** [new ClientRequest(reqParams)]: the headers of the options are set
    one by one, in the object's own order.  Headers that Node adds on its
    own account, such as a default [Host], are not represented. *)
Definition new_ClientRequest (rp : ReqParams) : ClientRequest :=
  fold_left (fun r kv => setHeader (fst kv) (HStr (snd kv)) r) (rp_headers rp)
    (mkClientRequest rp ∅ false false false None false).

Definition getHeader (name : string) (r : ClientRequest) : option HeaderValue :=
  snd <$> (cr_headers r !! toLowerCase name).

Section Request.

Variable rt : Runtime.

Definition makeReqParams (c : HttpConnector) (params : option Params) : ReqParams :=
  let params := match params with Some p => p | None => no_params end in
  let h := c_host c in
  let path0 := str_or (path h) "" +:+ str_or (p_path params) "" in
  let path1 := match path0 with EmptyString => "/" | _ => path0 end in
  let path2 := match getQuery h (p_query params) with
               | Some query => path1 +:+ "?" +:+ qs_stringify rt query
               | None => path1
               end in
  mkReqParams (str_or (p_method params) "GET") (protocol h +:+ ":") (host h)
    (port h) path2 (getHeaders h (p_headers params)) (agent c).

(** The fourth argument of the tracing call. *)
Inductive LogArg : Type :=
| LogNull
| LogRequest (r : ClientRequest)
| LogText (s : JsString).

Record LogEntry : Type := mkLogEntry {
  log_method : option string;
  log_reqParams : ReqParams;
  log_body : option JsString;
  log_response : LogArg;
  log_status : Z
}.

(** Listeners on the response stream, or on the zlib stream it was piped
    into ([piped]).  The ['data'] listener stays for good; the other two
    were attached with [once]. *)
Record Incoming : Type := mkIncoming {
  piped : bool;
  onError : bool;
  onEnd : bool
}.

(** The variables captured by the closures of one [request] call, the
    listeners they have attached, and what has reached the outside: the
    calls of [_cb] and of [this.log.trace], and the number of calls of
    [request.abort]. *)
Record ReqState : Type := mkReqState {
  request : option ClientRequest;   (* [None] is null *)
  status : Z;
  headers : Headers;
  response : JsString;
  requestOnError : bool;            (* request.once('error', cleanUp) *)
  incoming : option Incoming;       (* [None] until the response callback ran *)
  cbSpent : bool;                   (* the flag inside _.once *)
  delivered : list (list JsVal);
  traced : list LogEntry;
  aborts : nat
}.

Variable params : Params.
Variable reqParams : ReqParams.

(** [cb = _.once(_cb)]. *)
Definition cb (args : list JsVal) (st : ReqState) : ReqState :=
  if cbSpent st then st
  else mkReqState (request st) (status st) (headers st) (response st)
         (requestOnError st) (incoming st) true (delivered st ++ [args])
         (traced st) (aborts st).

Definition logRequest (arg : LogArg) (st : ReqState) : ReqState :=
  mkReqState (request st) (status st) (headers st) (response st)
    (requestOnError st) (incoming st) (cbSpent st) (delivered st)
    (traced st ++
       [mkLogEntry (p_method params) reqParams (p_body params) arg (status st)])
    (aborts st).

Definition request_value (st : ReqState) : LogArg :=
  match request st with
  | Some r => LogRequest r
  | None => LogNull
  end.

Definition cleanUp (err response_arg : JsVal) (st : ReqState) : ReqState :=
  let st1 :=
    match request st with
    | Some _ =>
        mkReqState None (status st) (headers st) (response st) false
          (incoming st) (cbSpent st) (delivered st) (traced st) (aborts st)
    | None => st
    end in
  let err1 := if instanceof_Error err then err else VUndefined in
  let st2 := logRequest (request_value st1) st1 in
  if truthy err1 then cb [err1] st2
  else cb [err1; js_or response_arg VUndefined; VNum (status st2);
           VObj (headers st2)] st2.

(** The test on the [content-encoding] response header. *)
Definition is_compressed (h : Headers) : bool :=
  let encoding := toLowerCase (str_or (h !! "content-encoding") "") in
  String.eqb encoding "gzip" || String.eqb encoding "deflate".

Inductive Event : Type :=
| ReqError (e : JsVal)                  (* 'error' on the request *)
| Response (statusCode : Z) (h : Headers)
| Data (d : JsString)                   (* 'data' on the listened stream *)
| StreamError (e : JsVal)               (* 'error' on the listened stream *)
| End                                   (* 'end' on the listened stream *)
| Cancel.                               (* the returned function is called *)

(** The callback given to [this.hand.request]. *)
Definition on_response (statusCode : Z) (h : Headers) (st : ReqState) : ReqState :=
  mkReqState (request st) statusCode h [] (requestOnError st)
    (Some (mkIncoming (is_compressed h) true true))
    (cbSpent st) (delivered st) (traced st) (aborts st).

Definition on_data (d : JsString) (st : ReqState) : ReqState :=
  mkReqState (request st) (status st) (headers st) (response st ++ d)
    (requestOnError st) (incoming st) (cbSpent st) (delivered st) (traced st)
    (aborts st).

Definition set_listeners (req_err : bool) (inc : option Incoming) (st : ReqState)
  : ReqState :=
  mkReqState (request st) (status st) (headers st) (response st) req_err inc
    (cbSpent st) (delivered st) (traced st) (aborts st).

(** The function [request] returns: while [request] is not null, each
    call of it is one more call of [request.abort()]. *)
Definition cancel (st : ReqState) : ReqState :=
  match request st with
  | Some r =>
      mkReqState (Some (abort rt r)) (status st) (headers st) (response st)
        (requestOnError st) (incoming st) (cbSpent st) (delivered st)
        (traced st) (S (aborts st))
  | None => st
  end.

(** One turn of the event loop: the event reaches the listener attached
    for it, if there is one.  A [once] listener is detached before it
    runs. *)
Definition step (st : ReqState) (ev : Event) : ReqState :=
  match ev with
  | ReqError e =>
      if requestOnError st
      then cleanUp e VUndefined (set_listeners false (incoming st) st)
      else st
  | Response code h =>
      match incoming st with
      | None => on_response code h st
      | Some _ => st
      end
  | Data d =>
      match incoming st with
      | Some _ => on_data d st
      | None => st
      end
  | StreamError e =>
      match incoming st with
      | Some i =>
          if onError i
          then cleanUp e VUndefined
                 (set_listeners (requestOnError st)
                    (Some (mkIncoming (piped i) false (onEnd i))) st)
          else st
      | None => st
      end
  | End =>
      match incoming st with
      | Some i =>
          if onEnd i
          then cleanUp VUndefined (VStr (response st))
                 (set_listeners (requestOnError st)
                    (Some (mkIncoming (piped i) (onError i) false)) st)
          else st
      | None => st
      end
  | Cancel => cancel st
  end.

Definition run (st : ReqState) (evs : list Event) : ReqState :=
  fold_left step evs st.

(** [this.hand.request(reqParams, callback)] followed by the calls up to
    [request.end]: the state in which [request] returns. *)
Definition issue (body : option JsString) (rp : ReqParams) : ReqState :=
  let r0 := new_ClientRequest rp in
  let r1 := setSocketKeepAlive true (setNoDelay true r0) in
  let r2 :=
    if text_truthy body
    then end_request body
           (setHeader "Content-Length"
              (HNum (byteLength (match body with Some b => b | None => [] end)))
              r1)
    else end_request None (setHeader "Content-Length" (HNum 0) r1) in
  mkReqState (Some r2) 0 ∅ [] true None false [] [] 0%nat.

(** The events the runtime delivers for a response body of raw bytes:
    the text is decoded from the bytes, or from what zlib makes of them
    when the listeners sit on the zlib stream. *)
Definition body_events (through_zlib : bool) (raw : list Byte.byte) : list Event :=
  let text_events bytes :=
    List.map Data (chunked rt (utf8_decode rt bytes)) ++ [End] in
  if through_zlib then
    match zlib_unzip rt raw with
    | inr bytes => text_events bytes
    | inl e => [StreamError e]
    end
  else text_events raw.

Definition receive (st : ReqState) (statusCode : Z) (h : Headers)
    (raw : list Byte.byte) : ReqState :=
  let st1 := step st (Response statusCode h) in
  run st1 (body_events (match incoming st1 with
                        | Some i => piped i
                        | None => false
                        end) raw).

End Request.

(** [HttpConnector.prototype.request]: the state of the new request, or
    the exception of a [hand] that has no [request] function. *)
Definition HttpConnector_request (rt : Runtime) (c : HttpConnector) (p : Params)
  : Result ReqState :=
  let rp := makeReqParams rt c (Some p) in
  match hand c with
  | Inherited _ => Throw (TypeError "this.hand.request is not a function")
  | _ => Ok (issue (p_body p) rp)
  end.

(** ** Fixtures *)

Definition host_with_protocol (p : string) : Host :=
  mkHost p "localhost" 9200 None None (fun _ => []) (fun _ => None).

Definition options_with (keep_alive forever_opt : JsVal) : PoolOptions :=
  mkPoolOptions VUndefined keep_alive VUndefined VUndefined VUndefined
    forever_opt.

(** The connector after requests have left [busy] sockets in use and
    [idle] sockets free in its pool. *)
Definition pool_holding (c : HttpConnector)
    (busy idle : list (string * list (option Socket))) : HttpConnector :=
  let a := agent c in
  mkConnector (c_host c) (hand c) (useSsl c)
    (mkAgent (agentClass a) (agentConfig a) (minSockets a) (agentMaxSockets a)
       (requests a) busy idle (removeSocketCalls a))
    (statusSetListeners c).

(** A stand-in runtime for concrete runs: bytes are read as one code unit
    each, text arrives in a single chunk, the compressed form of a body
    is the body behind a one-byte marker, and [abort] marks the request
    as aborted, as Node's does. *)
Definition sample_runtime : Runtime :=
  mkRuntime
    (fun _ => "")
    (fun raw => match raw with
                | [] => inl (VError "unexpected end of file")
                | _ :: body => inr body
                end)
    (List.map (fun b => N.of_nat (Byte.to_nat b)))
    (fun s => match s with [] => [] | _ => [s] end)
    (fun r => mkClientRequest (cr_options r) (cr_headers r) (cr_noDelay r)
                (cr_socketKeepAlive r) (cr_ended r) (cr_body r) true).

Definition sample_reqParams : ReqParams :=
  mkReqParams "GET" "http:" "localhost" 9200 "/" []
    (new_Agent KeepAliveAgent []).

Definition get_root : Params := mkParams (Some "GET") (Some "/") None None None.

Definition gzip_headers : Headers := {[ "content-encoding" := "GZIP" ]}.

(** ** Vocabulary of the statements *)

(** Whether a sequence of events holds a signal that ends the request:
    an error on the request, or, once the response has begun, an error or
    the end of the listened stream. *)
Fixpoint signalled (responded : bool) (evs : list Event) : bool :=
  match evs with
  | [] => false
  | ReqError _ :: _ => true
  | Response _ _ :: r => signalled true r
  | StreamError _ :: r | End :: r => responded || signalled responded r
  | Data _ :: r | Cancel :: r => signalled responded r
  end.

(** Case-insensitive comparison as HTTP means it: the letters A-Z and
    a-z are identified, nothing else is. *)
Definition fold_case (c : ascii) : ascii :=
  let n := N_of_ascii c in
  if ((65 <=? n) && (n <=? 90))%N then ascii_of_N (n + 32) else c.

Fixpoint fold_case_string (s : string) : string :=
  match s with
  | EmptyString => EmptyString
  | String c r => String (fold_case c) (fold_case_string r)
  end.

Definition equals_ignoring_case (a b : string) : Prop :=
  fold_case_string a = fold_case_string b.

Definition is_small_letter (c : ascii) : bool :=
  let n := N_of_ascii c in ((97 <=? n) && (n <=? 122))%N.

Fixpoint small_letters (s : string) : bool :=
  match s with
  | EmptyString => true
  | String c r => is_small_letter c && small_letters r
  end.

(** The [content-encoding] header of a response, the empty string when
    it is absent. *)
Definition content_encoding (h : Headers) : string :=
  match h !! "content-encoding" with
  | Some v => v
  | None => ""
  end.

(** The body argument of a successful callback: the text, or [undefined]
    when the text is empty. *)
Definition text_or_undefined (s : JsString) : JsVal :=
  match s with
  | [] => VUndefined
  | _ => VStr s
  end.

(** The arguments [cleanUp] hands to [cb]. *)
Definition cleanUp_args (err response_arg : JsVal) (st : ReqState) : list JsVal :=
  if instanceof_Error err then [err]
  else [VUndefined; js_or response_arg VUndefined; VNum (status st);
        VObj (headers st)].

(** A request on which nothing has happened yet. *)
Definition pending (st : ReqState) : Prop :=
  cbSpent st = false /\ requestOnError st = true /\ incoming st = None /\
  delivered st = [].

Definition responded (st : ReqState) : bool :=
  match incoming st with Some _ => true | None => false end.

(** What holds of a request at every turn of the event loop: until the
    callback has fired nothing was delivered and every [once] listener
    is still attached; afterwards exactly one call was delivered. *)
Definition consistent (st : ReqState) : Prop :=
  if cbSpent st then List.length (delivered st) = 1%nat
  else requestOnError st = true /\ delivered st = [] /\
       forall i, incoming st = Some i -> onError i = true /\ onEnd i = true.

(** ** Vocabulary of the further properties *)

Definition given_options (config : option Config) : PoolOptions :=
  match config with
  | Some c => options c
  | None => no_options
  end.

Definition given_factory (config : option Config)
  : option (Host -> PoolOptions -> Agent) :=
  match config with
  | Some c => createNodeAgent c
  | None => None
  end.

(** Keep-alive as the configuration asks for it: a truthy [forever], or
    a [keepAlive] that is truthy once its default is filled in. *)
Definition keep_alive_in_effect (o : PoolOptions) : bool :=
  truthy (forever o) || truthy (default_to (keepAlive o) (VBool true)).

Definition is_tls_agent (cls : AgentClass) : bool :=
  match cls with
  | HttpsAgent | KeepAliveHttpsAgent => true
  | _ => false
  end.

(** The same host with other TLS options. *)
Definition with_ssl (s : option (list (string * JsVal))) (h : Host) : Host :=
  mkHost (protocol h) (host h) (port h) (path h) s (getHeaders h) (getQuery h).

Definition agent_config_names : list string :=
  [ "keepAlive"; "keepAliveMsecs"; "maxSockets"; "maxFreeSockets";
    "freeSocketKeepAliveTimeout" ].

Definition is_response (ev : Event) : bool :=
  match ev with Response _ _ => true | _ => false end.

(** The [once] listeners a request still has, counting the two that the
    response callback is yet to attach. *)
Definition listeners_left (st : ReqState) : nat :=
  ((if requestOnError st then 1 else 0)
   + match incoming st with
     | None => 2
     | Some i => (if onError i then 1 else 0) + (if onEnd i then 1 else 0)
     end)%nat.

(** * Properties *)

(** ** Construction *)

Lemma handles_own (key : string) :
  key = "http" \/ key = "https" ->
  handles key = Some (if String.eqb key "https" then HttpsModule else HttpModule).
Proof. intros [-> | ->]; reflexivity. Qed.

Lemma construct_rejects_unknown (h : Host) (config : option Config) :
  handles (protocol h) = None ->
  construct h config =
    Throw (TypeError ("Invalid protocol " +:+ dquote +:+ protocol h +:+ dquote
                      +:+ ", expected one of http, https")).
Proof. intros H. unfold construct. rewrite H. reflexivity. Qed.

Lemma construct_scenario_ftp :
  construct (host_with_protocol "ftp:") None =
    Throw (TypeError ("Invalid protocol " +:+ dquote +:+ "ftp:" +:+ dquote
                      +:+ ", expected one of http, https")).
Proof. reflexivity. Qed.

Lemma createAgent_own_hand (h : Host) (hd : Hand) (ssl_on : bool) (o : PoolOptions) :
  hd = HttpModule \/ hd = HttpsModule ->
  exists a ls, createAgent h hd ssl_on o = Ok (a, ls).
Proof.
  intros Hhd. unfold createAgent.
  destruct (truthy (forever o)); cbn [keepAlive];
    match goal with |- context [truthy ?v] => destruct (truthy v) end;
    destruct Hhd as [-> | ->]; cbn; eauto.
Qed.

Lemma construct_accepts_http_and_https (h : Host) (config : option Config) :
  protocol h = "http" \/ protocol h = "https" ->
  exists c, construct h config = Ok c.
Proof.
  intros Hp. unfold construct. rewrite (handles_own _ Hp).
  set (hd := if String.eqb (protocol h) "https" then HttpsModule else HttpModule).
  assert (Hhd : hd = HttpModule \/ hd = HttpsModule)
    by (subst hd; destruct (String.eqb (protocol h) "https"); auto).
  destruct (match config with Some c => createNodeAgent c | None => None end);
    [ eauto | ].
  destruct (createAgent_own_hand h hd (String.eqb (protocol h) "https")
              (defaults (match config with
                         | Some c => options c
                         | None => no_options
                         end)) Hhd) as (a & ls & ->).
  eauto.
Qed.

(** C3.  The constructor means to refuse every protocol other than
    [http] and [https], but it looks the protocol up in an object
    literal: for the protocol ["constructor"] the lookup finds the
    function inherited from [Object.prototype], the guard is passed and a
    connector with a keep-alive agent is returned instead of an error. *)
Theorem construct_accepts_inherited_name :
  handles "constructor" = Some (Inherited "constructor") /\
  exists c,
    construct (host_with_protocol "constructor") None = Ok c /\
    hand c = Inherited "constructor" /\
    agentClass (agent c) = KeepAliveAgent.
Proof. split; [ reflexivity | eexists; repeat split ]. Qed.

(** ** The agent built by [createAgent] *)

Lemma createAgent_forever (h : Host) (hd : Hand) (ssl_on : bool) (o : PoolOptions) :
  truthy (forever o) = true ->
  exists a,
    createAgent h hd ssl_on o = Ok (a, [BoundOnStatusSet]) /\
    agentClass a = (if ssl_on then KeepAliveHttpsAgent else KeepAliveAgent).
Proof.
  intros Hf. unfold createAgent. rewrite Hf. cbn [keepAlive]. rewrite Hf.
  eexists. split; reflexivity.
Qed.

Lemma createAgent_no_keep_alive (h : Host) (hd : Hand) (ssl_on : bool)
    (o : PoolOptions) (a : Agent) (ls : list Listener) :
  truthy (forever o) = false ->
  truthy (keepAlive o) = false ->
  createAgent h hd ssl_on o = Ok (a, ls) ->
  ls = [] /\ Some (agentClass a) = hand_Agent hd.
Proof.
  intros Hf Hk. unfold createAgent. rewrite Hf, Hk.
  destruct (hand_Agent hd); intros E; inversion E; subst. split; reflexivity.
Qed.

(** C10.  Without a [createNodeAgent] override, a truthy [forever]
    option forces keep-alive whatever [keepAlive] says: the connector is
    built with the keep-alive agent class and the drain listener is
    registered.  With [keepAlive: false] and a falsy [forever], no
    connector that construction returns has the drain listener. *)
Theorem forever_forces_keep_alive (h : Host) (cfg : Config) :
  (createNodeAgent cfg = None ->
   truthy (forever (options cfg)) = true ->
   protocol h = "http" \/ protocol h = "https" ->
   exists c,
     construct h (Some cfg) = Ok c /\
     agentClass (agent c) =
       (if useSsl c then KeepAliveHttpsAgent else KeepAliveAgent) /\
     statusSetListeners c = [BoundOnStatusSet]) /\
  (keepAlive (options cfg) = VBool false ->
   truthy (forever (options cfg)) = false ->
   forall c, construct h (Some cfg) = Ok c -> statusSetListeners c = []).
Proof.
  split.
  - intros Hnone Hf Hp. unfold construct. rewrite (handles_own _ Hp), Hnone.
    destruct (createAgent_forever h
                (if String.eqb (protocol h) "https" then HttpsModule else HttpModule)
                (String.eqb (protocol h) "https") (defaults (options cfg)))
      as (a & -> & Hcls); [ exact Hf | ].
    eexists. repeat split. exact Hcls.
  - intros Hk Hf c. unfold construct.
    destruct (handles (protocol h)) as [hd|]; [ | discriminate ].
    destruct (createNodeAgent cfg) as [factory|].
    + intros E; inversion E; reflexivity.
    + destruct (createAgent h hd _ _) as [[a ls]|e] eqn:E; [ | discriminate ].
      apply createAgent_no_keep_alive in E as [-> _];
        [ | exact Hf | cbn [defaults keepAlive]; rewrite Hk; reflexivity ].
      intros E; inversion E; reflexivity.
Qed.

Lemma forever_forces_keep_alive_witness :
  (exists c,
     construct (host_with_protocol "https")
       (Some (mkConfig (options_with (VBool false) (VBool true)) None)) = Ok c /\
     agentClass (agent c) = KeepAliveHttpsAgent /\
     statusSetListeners c = [BoundOnStatusSet]) /\
  (forall c,
     construct (host_with_protocol "http")
       (Some (mkConfig (options_with (VBool false) VUndefined) None)) = Ok c ->
     statusSetListeners c = []).
Proof.
  split.
  - destruct (proj1 (forever_forces_keep_alive (host_with_protocol "https")
               (mkConfig (options_with (VBool false) (VBool true)) None))
               eq_refl eq_refl (or_intror eq_refl)) as (c & E & Hcls & Hls).
    exists c. split; [ exact E | ]. split; [ | exact Hls ].
    rewrite Hcls. unfold construct in E. cbn in E. inversion E. reflexivity.
  - exact (proj2 (forever_forces_keep_alive (host_with_protocol "http")
               (mkConfig (options_with (VBool false) VUndefined) None))
               eq_refl eq_refl).
Defined.

(** ** Draining *)

Lemma fold_remove_and_destroy (L : list (string * Socket)) :
  forall (a : Agent) (d : list Socket),
    let w := fold_left remove_and_destroy L (a, d) in
    snd w = d ++ List.map snd L /\
    removeSocketCalls (fst w)
      = removeSocketCalls a
        ++ List.map (fun p => (snd p, parseUrl (fst p))) L /\
    sockets (fst w) = sockets a /\
    freeSockets (fst w) = freeSockets a /\
    minSockets (fst w) = minSockets a /\
    agentMaxSockets (fst w) = agentMaxSockets a /\
    requests (fst w) = requests a.
Proof.
  induction L as [|[k s] L IH]; intros a d; cbn zeta.
  - cbn. rewrite !app_nil_r. repeat split.
  - cbn [fold_left].
    change (remove_and_destroy (a, d) (k, s))
      with (removeSocket a s (parseUrl k), d ++ [s]).
    destruct (IH (removeSocket a s (parseUrl k)) (d ++ [s]))
      as (H1 & H2 & H3 & H4 & H5 & H6 & H7).
    rewrite H1, H2. cbn [removeSocket removeSocketCalls List.map fst snd].
    rewrite <- !app_assoc. repeat split; assumption.
Qed.

Lemma onStatusSet_closed (a : Agent) (d : list Socket) :
  let w := onStatusSet "closed" (a, d) in
  agentMaxSockets (fst w) = VNum 0 /\
  minSockets (fst w) = VNum 0 /\
  requests (fst w) = [] /\
  snd w = d ++ tracked a /\
  removeSocketCalls (fst w) = removeSocketCalls a ++ removals a.
Proof.
  cbn zeta. unfold onStatusSet.
  change (String.eqb "closed" "closed") with true. cbn [fst snd sockets freeSockets].
  set (L := collectSockets (sockets a) ++ collectSockets (freeSockets a)).
  destruct (fold_remove_and_destroy L
              (mkAgent (agentClass a) (agentConfig a) (VNum 0) (VNum 0) []
                 (sockets a) (freeSockets a) (removeSocketCalls a)) d)
    as (H1 & H2 & _ & _ & H5 & H6 & H7).
  repeat split; assumption.
Qed.

Lemma onStatusSet_other (status : string) (w : PoolWorld) :
  status <> "closed" -> onStatusSet status w = w.
Proof.
  intros H. unfold onStatusSet.
  destruct (String.eqb status "closed") eqn:E; [ | reflexivity ].
  apply String.eqb_eq in E. contradiction.
Qed.

(** C2, as amended.  When the drain listener is registered on the
    connector, the closed notification sets both pool limits to zero,
    clears the queued requests, and goes through the tracked sockets,
    in-use first and idle after: each is passed to the agent's
    [removeSocket] with its parsed host key and then destroyed, so that
    a pool that lists each socket once has each socket destroyed exactly
    once. *)
Theorem closed_drains_registered_pool (c : HttpConnector) (d : list Socket) :
  statusSetListeners c = [BoundOnStatusSet] ->
  let r := notifyStatus c "closed" d in
  agentMaxSockets (agent (fst r)) = VNum 0 /\
  minSockets (agent (fst r)) = VNum 0 /\
  requests (agent (fst r)) = [] /\
  snd r = d ++ tracked (agent c) /\
  removeSocketCalls (agent (fst r))
    = removeSocketCalls (agent c) ++ removals (agent c) /\
  (List.NoDup (tracked (agent c)) ->
   forall s, In s (tracked (agent c)) ->
             count_occ Nat.eq_dec (snd r) s = S (count_occ Nat.eq_dec d s)).
Proof.
  intros Hls. cbn zeta. unfold notifyStatus. rewrite Hls.
  cbn [fold_left run_listener fst snd agent].
  destruct (onStatusSet_closed (agent c) d) as (H1 & H2 & H3 & H4 & H5).
  repeat split; auto.
  intros Hnd s Hin. rewrite H4, count_occ_app.
  pose proof (proj1 (NoDup_count_occ' Nat.eq_dec (tracked (agent c))) Hnd s Hin)
    as Hone.
  unfold Socket in *. rewrite Hone. apply Nat.add_1_r.
Qed.

(** The scenario of a pool with two sockets in use and three idle. *)
Lemma closed_drains_registered_pool_witness :
  exists c,
    construct (host_with_protocol "http") None = Ok c /\
    let c1 := pool_holding c [("localhost:9200:", [Some 1; Some 2])%nat]
                [("localhost:9200:", [Some 3; Some 4; Some 5])%nat] in
    let r := notifyStatus c1 "closed" [] in
    agentMaxSockets (agent (fst r)) = VNum 0 /\
    snd r = [1; 2; 3; 4; 5]%nat /\
    count_occ Nat.eq_dec (snd r) 4%nat = 1%nat /\
    removeSocketCalls (agent (fst r))
      = List.map (fun s => (s, parseUrl "localhost:9200:")) [1; 2; 3; 4; 5]%nat.
Proof.
  eexists. split; [ reflexivity | ]. cbn zeta.
  match goal with
  | |- context [notifyStatus ?c1 "closed" []] =>
      destruct (closed_drains_registered_pool c1 [] eq_refl)
        as (H1 & _ & _ & H4 & H5 & H6)
  end.
  split; [ exact H1 | ]. split; [ exact H4 | ]. split; [ | exact H5 ].
  apply H6.
  - repeat constructor; cbn; intuition discriminate.
  - cbn. auto.
Defined.

(** C2, as stated, fails: a connector built with [keepAlive: false] has
    no drain listener, so the closed notification leaves the pool's limit
    and all five sockets untouched. *)
Lemma closed_ignored_without_keep_alive :
  exists c,
    construct (host_with_protocol "http")
      (Some (mkConfig (options_with (VBool false) VUndefined) None)) = Ok c /\
    let c1 := pool_holding c [("localhost:9200:", [Some 1; Some 2])%nat]
                [("localhost:9200:", [Some 3; Some 4; Some 5])%nat] in
    let r := notifyStatus c1 "closed" [] in
    tracked (agent c1) = [1; 2; 3; 4; 5]%nat /\
    agentMaxSockets (agent (fst r)) <> VNum 0 /\
    snd r = [] /\
    tracked (agent (fst r)) = [1; 2; 3; 4; 5]%nat.
Proof.
  eexists. split; [ reflexivity | ]. cbn.
  repeat split; discriminate.
Qed.

(** ** One request *)

Section RequestProperties.

Variable rt : Runtime.
Variable params : Params.
Variable reqParams : ReqParams.

Local Abbreviation cleanUp' := (cleanUp params reqParams).
Local Abbreviation step' := (step rt params reqParams).
Local Abbreviation run' := (run rt params reqParams).

Lemma cb_first (args : list JsVal) (st : ReqState) :
  cbSpent st = false ->
  cbSpent (cb args st) = true /\ delivered (cb args st) = delivered st ++ [args].
Proof. intros H. unfold cb. rewrite H. split; reflexivity. Qed.

Lemma cb_again (args : list JsVal) (st : ReqState) :
  cbSpent st = true -> cb args st = st.
Proof. intros H. unfold cb. rewrite H. reflexivity. Qed.

Lemma cleanUp_first (err response_arg : JsVal) (st : ReqState) :
  cbSpent st = false ->
  cbSpent (cleanUp' err response_arg st) = true /\
  delivered (cleanUp' err response_arg st)
    = delivered st ++ [cleanUp_args err response_arg st].
Proof.
  intros H. destruct st as [rq s h rs re i sp dl tr ab]. cbn in H. subst sp.
  unfold cleanUp, cleanUp_args.
  destruct err, rq; split; reflexivity.
Qed.

(** Name what the first run of [cleanUp] in the goal does to the
    callback. *)
Ltac cleanUp_fires Hs H1 H2 :=
  match goal with
  | |- context [cleanUp _ _ ?e ?r ?s] =>
      destruct (cleanUp_first e r s Hs) as [H1 H2]
  end.

Lemma cleanUp_again (err response_arg : JsVal) (st : ReqState) :
  cbSpent st = true ->
  cbSpent (cleanUp' err response_arg st) = true /\
  delivered (cleanUp' err response_arg st) = delivered st.
Proof.
  intros H. destruct st as [rq s h rs re i sp dl tr ab]. cbn in H. subst sp.
  unfold cleanUp.
  destruct err, rq; split; reflexivity.
Qed.

Lemma cleanUp_after (err response_arg : JsVal) (st st' : ReqState) :
  cbSpent st' = true ->
  delivered st' = delivered st ->
  cbSpent (cleanUp' err response_arg st') = true /\
  delivered (cleanUp' err response_arg st') = delivered st.
Proof.
  intros H <-. apply cleanUp_again. exact H.
Qed.

Lemma step_spent (st : ReqState) (ev : Event) :
  cbSpent st = true ->
  cbSpent (step' st ev) = true /\ delivered (step' st ev) = delivered st.
Proof.
  intros H. destruct ev; cbn [step].
  - destruct (requestOnError st); [ apply cleanUp_after | ]; auto.
  - destruct (incoming st); auto.
  - destruct (incoming st); auto.
  - destruct (incoming st) as [i|]; auto.
    destruct (onError i); [ apply cleanUp_after | ]; auto.
  - destruct (incoming st) as [i|]; auto.
    destruct (onEnd i); [ apply cleanUp_after | ]; auto.
  - unfold cancel. destruct (request st); auto.
Qed.

Lemma step_consistent (st : ReqState) (ev : Event) :
  consistent st ->
  consistent (step' st ev) /\
  forall evs,
    cbSpent (step' st ev) || signalled (responded (step' st ev)) evs
    = cbSpent st || signalled (responded st) (ev :: evs).
Proof.
  intros Hc. unfold consistent in Hc.
  destruct (cbSpent st) eqn:Hs.
  - destruct (step_spent st ev Hs) as [H1 H2].
    unfold consistent. rewrite H1, H2. cbn. auto.
  - destruct Hc as (Hre & Hd & Hin). split.
    + destruct ev; cbn [step].
      * rewrite Hre.
        cleanUp_fires Hs H1 H2. unfold consistent. rewrite H1, H2.
        cbn [set_listeners delivered]. rewrite Hd. reflexivity.
      * unfold consistent. destruct (incoming st) eqn:Hi.
        -- rewrite Hs. rewrite Hi. auto.
        -- cbn. rewrite Hs. repeat split; auto; inversion H; reflexivity.
      * unfold consistent. destruct (incoming st) eqn:Hi.
        -- cbn. rewrite Hs, Hi. auto.
        -- rewrite Hs, Hi. auto.
      * unfold consistent at 1. destruct (incoming st) as [i|] eqn:Hi.
        -- destruct (Hin i eq_refl) as [-> _].
           cleanUp_fires Hs H1 H2. rewrite H1, H2.
           cbn [set_listeners delivered]. rewrite Hd. reflexivity.
        -- rewrite Hs, Hi. auto.
      * unfold consistent at 1. destruct (incoming st) as [i|] eqn:Hi.
        -- destruct (Hin i eq_refl) as [_ ->].
           cleanUp_fires Hs H1 H2. rewrite H1, H2.
           cbn [set_listeners delivered]. rewrite Hd. reflexivity.
        -- rewrite Hs, Hi. auto.
      * unfold consistent, cancel. destruct (request st); cbn; rewrite Hs; auto.
    + intros evs. destruct ev; cbn [step signalled orb].
      * rewrite Hre.
        cleanUp_fires Hs H1 H2. rewrite H1. reflexivity.
      * unfold responded. destruct (incoming st) eqn:Hi.
        -- rewrite Hs, Hi. reflexivity.
        -- cbn. rewrite Hs. reflexivity.
      * unfold responded. destruct (incoming st) eqn:Hi.
        -- cbn. rewrite Hs, Hi. reflexivity.
        -- rewrite Hs, Hi. reflexivity.
      * unfold responded at 2. destruct (incoming st) as [i|] eqn:Hi.
        -- destruct (Hin i eq_refl) as [-> _].
           cleanUp_fires Hs H1 H2. rewrite H1. reflexivity.
        -- unfold responded. rewrite Hs, Hi. reflexivity.
      * unfold responded at 2. destruct (incoming st) as [i|] eqn:Hi.
        -- destruct (Hin i eq_refl) as [_ ->].
           cleanUp_fires Hs H1 H2. rewrite H1. reflexivity.
        -- unfold responded. rewrite Hs, Hi. reflexivity.
      * unfold responded, cancel. destruct (request st); cbn; rewrite Hs; reflexivity.
Qed.

Lemma run_consistent (evs : list Event) :
  forall st,
    consistent st ->
    consistent (run' st evs) /\
    cbSpent (run' st evs) = cbSpent st || signalled (responded st) evs.
Proof.
  induction evs as [|ev evs IH]; intros st Hc.
  - cbn. split; [ exact Hc | symmetry; apply orb_false_r ].
  - destruct (step_consistent st ev Hc) as [Hc' Hsig].
    destruct (IH (step' st ev) Hc') as [H1 H2].
    change (run' st (ev :: evs)) with (run' (step' st ev) evs).
    split; [ exact H1 | ]. rewrite H2. apply Hsig.
Qed.

Lemma issue_pending (body : option JsString) (rp : ReqParams) :
  pending (issue body rp).
Proof. repeat split. Qed.

Lemma pending_consistent (st : ReqState) : pending st -> consistent st.
Proof.
  intros (Hs & Hre & Hi & Hd). unfold consistent. rewrite Hs.
  repeat split; auto; rewrite Hi in *; discriminate.
Qed.

Lemma delivered_by_signal (body : option JsString) (evs : list Event) :
  let st := run' (issue body reqParams) evs in
  if signalled false evs then List.length (delivered st) = 1%nat
  else delivered st = [].
Proof.
  cbn zeta.
  destruct (run_consistent evs (issue body reqParams)
              (pending_consistent _ (issue_pending body reqParams)))
    as [Hc Hs].
  change (cbSpent (issue body reqParams)) with false in Hs.
  change (responded (issue body reqParams)) with false in Hs.
  cbn [orb] in Hs. unfold consistent in Hc. rewrite Hs in Hc.
  destruct (signalled false evs); [ exact Hc | apply Hc ].
Qed.

(** C1.  Whatever events reach a request, its callback is never called
    twice; and in every run that the runtime brings to an end, that is,
    one that holds an error on the request, or an error or the end of
    the response stream once the response has begun, it is called
    exactly once, also when several of these signals arrive for the same
    request. *)
Theorem callback_fires_exactly_once
    (body : option JsString) (evs : list Event) :
  let st := run' (issue body reqParams) evs in
  (List.length (delivered st) <= 1)%nat /\
  (signalled false evs = true -> List.length (delivered st) = 1%nat).
Proof.
  cbn zeta. pose proof (delivered_by_signal body evs) as H. cbn zeta in H.
  destruct (signalled false evs).
  - rewrite H. split; auto.
  - rewrite H. split; [ cbn; lia | discriminate ].
Qed.

(** An error and the end of the stream for one request, in either
    order, with anything in between: one call. *)
Corollary callback_once_when_error_and_end_race
    (body : option JsString) (code : Z) (h : Headers) (e : JsVal)
    (before between after : list Event) :
  List.length (delivered (run' (issue body reqParams)
     (Response code h :: before ++ ReqError e :: between ++ End :: after))) = 1%nat /\
  List.length (delivered (run' (issue body reqParams)
     (Response code h :: before ++ End :: between ++ ReqError e :: after))) = 1%nat.
Proof.
  assert (Hsig : forall b pre post, signalled b (pre ++ ReqError e :: post) = true).
  { intros b pre. revert b. induction pre as [|ev pre IH]; intros b post;
      [ reflexivity | ].
    destruct ev; cbn [app signalled]; rewrite ?IH, ?orb_true_r; reflexivity. }
  split.
  - pose proof (delivered_by_signal body
      (Response code h :: before ++ ReqError e :: between ++ End :: after)) as H.
    cbn [signalled] in H. rewrite Hsig in H. exact H.
  - pose proof (delivered_by_signal body
      (Response code h :: before ++ End :: between ++ ReqError e :: after)) as H.
    cbn [signalled] in H.
    assert (E : signalled true (before ++ End :: between ++ ReqError e :: after)
                = true).
    { change (End :: between ++ ReqError e :: after)
        with ([End] ++ between ++ ReqError e :: after).
      rewrite app_assoc, app_assoc. apply Hsig. }
    rewrite E in H. exact H.
Qed.

(** C4, as amended.  When an error that is an instance of [Error]
    reaches [cleanUp] first, from the request or from the response
    stream, the callback is called with that error as its only argument:
    no body, no status code and no headers are passed. *)
Theorem failed_request_passes_only_the_error (st : ReqState) (e : JsVal) :
  cbSpent st = false ->
  instanceof_Error e = true ->
  (requestOnError st = true ->
   delivered (step' st (ReqError e)) = delivered st ++ [[e]]) /\
  (forall i, incoming st = Some i -> onError i = true ->
   delivered (step' st (StreamError e)) = delivered st ++ [[e]]).
Proof.
  intros Hs He. split.
  - intros Hre. cbn [step]. rewrite Hre.
    cleanUp_fires Hs H1 H2. rewrite H2. unfold cleanUp_args. rewrite He. reflexivity.
  - intros i Hi Hon. cbn [step]. rewrite Hi, Hon.
    cleanUp_fires Hs H1 H2. rewrite H2. unfold cleanUp_args. rewrite He. reflexivity.
Qed.

(** C9.  Called first with anything that is not an instance of [Error],
    [cleanUp] coerces it to [undefined] and calls back with the success
    shape, the body being [undefined] when it is falsy; so a response
    that ends with an empty accumulated text delivers [undefined] as its
    body, not the empty string. *)
Theorem non_error_yields_success_shape (st : ReqState) (err response_arg : JsVal) :
  cbSpent st = false ->
  instanceof_Error err = false ->
  delivered (cleanUp' err response_arg st)
    = delivered st ++ [[VUndefined; js_or response_arg VUndefined;
                        VNum (status st); VObj (headers st)]] /\
  (forall i, incoming st = Some i -> onEnd i = true -> response st = [] ->
   delivered (step' st End)
     = delivered st ++ [[VUndefined; VUndefined; VNum (status st);
                         VObj (headers st)]]).
Proof.
  intros Hs He. split.
  - destruct (cleanUp_first err response_arg st Hs) as [_ ->].
    unfold cleanUp_args. rewrite He. reflexivity.
  - intros i Hi Hon Hr. cbn [step]. rewrite Hi, Hon, Hr.
    cleanUp_fires Hs H1 H2. rewrite H2. reflexivity.
Qed.

(** Every entry [cleanUp] hands to the tracing sink carries [null] where
    the response is expected: [request] has just been set to [null] and
    is what gets logged. *)
Lemma cleanUp_traces_null (err response_arg : JsVal) (st : ReqState) :
  traced (cleanUp' err response_arg st)
  = traced st ++ [mkLogEntry (p_method params) reqParams (p_body params)
                    LogNull (status st)].
Proof.
  destruct st as [rq s h rs re i sp dl tr ab]. unfold cleanUp.
  destruct err, rq, sp; reflexivity.
Qed.



(** ** The response body *)

Lemma fold_case_small (c : ascii) : is_small_letter c = true -> fold_case c = c.
Proof.
  unfold is_small_letter, fold_case. intros H.
  destruct ((65 <=? N_of_ascii c)%N && (N_of_ascii c <=? 90)%N) eqn:E;
    [ | reflexivity ].
  apply andb_prop in H as [H1 _]. apply andb_prop in E as [_ E2].
  apply N.leb_le in H1, E2. lia.
Qed.

Lemma lower_ascii_small (c x : ascii) :
  is_small_letter c = true -> (lower_ascii x = c <-> fold_case x = c).
Proof.
  unfold is_small_letter, lower_ascii, fold_case. intros Hc.
  apply andb_prop in Hc as [Hc1 Hc2]. apply N.leb_le in Hc1, Hc2.
  pose proof (N_ascii_bounded x) as Hx.
  destruct ((65 <=? N_of_ascii x)%N && (N_of_ascii x <=? 90)%N); [ tauto | ].
  destruct ((192 <=? N_of_ascii x)%N && (N_of_ascii x <=? 222)%N
            && negb (N_of_ascii x =? 215)%N) eqn:E; [ | tauto ].
  apply andb_prop in E as [E _]. apply andb_prop in E as [E1 E2].
  apply N.leb_le in E1, E2.
  split; intros H; exfalso.
  - apply (f_equal N_of_ascii) in H.
    rewrite N_ascii_embedding in H by lia. lia.
  - subst c. lia.
Qed.

Lemma toLowerCase_small (t : string) :
  small_letters t = true ->
  forall v, toLowerCase v = t <-> equals_ignoring_case v t.
Proof.
  unfold equals_ignoring_case.
  induction t as [|c t IH]; intros Ht v.
  - destruct v; cbn; split; intros H; congruence.
  - cbn in Ht. apply andb_prop in Ht as [Hc Ht].
    destruct v as [|x v]; cbn; [ split; intros H; discriminate | ].
    rewrite (fold_case_small c Hc).
    split; intros H; injection H as H1 H2; f_equal.
    + apply (lower_ascii_small c x Hc). exact H1.
    + apply (IH Ht). exact H2.
    + apply (lower_ascii_small c x Hc). exact H1.
    + apply (IH Ht). exact H2.
Qed.

(** The test of the code is the case-insensitive comparison of the
    header with the two names. *)
Lemma is_compressed_spec (h : Headers) :
  is_compressed h = true <->
  equals_ignoring_case (content_encoding h) "gzip" \/
  equals_ignoring_case (content_encoding h) "deflate".
Proof.
  unfold is_compressed.
  replace (str_or (h !! "content-encoding") "") with (content_encoding h)
    by (unfold content_encoding; destruct (h !! "content-encoding") as [[|]|];
        reflexivity).
  rewrite orb_true_iff, !String.eqb_eq.
  rewrite (toLowerCase_small "gzip" eq_refl),
          (toLowerCase_small "deflate" eq_refl).
  reflexivity.
Qed.

Lemma on_data_nil (st : ReqState) : on_data [] st = st.
Proof. destruct st. unfold on_data. cbn. rewrite app_nil_r. reflexivity. Qed.

Lemma run_data (ds : list JsString) :
  forall st, responded st = true ->
             run' st (List.map Data ds) = on_data (List.concat ds) st.
Proof.
  induction ds as [|d ds IH]; intros st Hr.
  - cbn. symmetry. apply on_data_nil.
  - unfold responded in Hr. destruct (incoming st) as [i|] eqn:Hi;
      [ | discriminate ].
    change (run' st (List.map Data (d :: ds)))
      with (run' (step' st (Data d)) (List.map Data ds)).
    cbn [step]. rewrite Hi.
    rewrite IH by (unfold responded; cbn; rewrite Hi; reflexivity).
    unfold on_data. cbn. rewrite app_assoc. reflexivity.
Qed.

Lemma text_or_undefined_or (s : JsString) :
  js_or (VStr s) VUndefined = text_or_undefined s.
Proof. destruct s; reflexivity. Qed.

(** The outcome of a response whose text arrives in full. *)
Lemma receive_text (body : option JsString) (code : Z) (h : Headers)
    (chunks : list JsString) :
  delivered (run' (step' (issue body reqParams) (Response code h))
               (List.map Data chunks ++ [End]))
  = [[VUndefined; text_or_undefined (List.concat chunks); VNum code; VObj h]].
Proof.
  unfold run. rewrite fold_left_app. fold (run' (step' (issue body reqParams)
    (Response code h)) (List.map Data chunks)).
  rewrite run_data by reflexivity.
  cbn [fold_left step issue on_response on_data incoming onEnd].
  match goal with
  | |- context [cleanUp _ _ ?e ?r ?s] =>
      destruct (cleanUp_first e r s eq_refl) as [_ ->]
  end.
  unfold cleanUp_args. cbn. rewrite text_or_undefined_or. reflexivity.
Qed.

(** C5, as amended.  Assuming the stream hands over the decoded text in
    pieces that concatenate to it: the response is read through zlib
    exactly when its [content-encoding] equals [gzip] or [deflate]
    ignoring case; the body delivered on success is then the UTF-8
    decoding of the decompressed bytes, and otherwise the UTF-8 decoding
    of the raw bytes, except that an empty text is delivered as
    [undefined]. *)
Theorem delivered_body_follows_content_encoding
    (body : option JsString) (code : Z) (h : Headers) (raw : list Byte.byte) :
  (forall s, List.concat (chunked rt s) = s) ->
  let st := receive rt params reqParams (issue body reqParams) code h raw in
  (is_compressed h = true <->
   equals_ignoring_case (content_encoding h) "gzip" \/
   equals_ignoring_case (content_encoding h) "deflate") /\
  (is_compressed h = true ->
   forall bytes, zlib_unzip rt raw = inr bytes ->
   delivered st = [[VUndefined; text_or_undefined (utf8_decode rt bytes);
                    VNum code; VObj h]]) /\
  (is_compressed h = false ->
   delivered st = [[VUndefined; text_or_undefined (utf8_decode rt raw);
                    VNum code; VObj h]]).
Proof.
  intros Hch. cbn zeta. split; [ apply is_compressed_spec | ].
  unfold receive.
  change (incoming (step' (issue body reqParams) (Response code h)))
    with (Some (mkIncoming (is_compressed h) true true)).
  cbn [piped]. unfold body_events. split.
  - intros -> bytes ->. rewrite receive_text, Hch. reflexivity.
  - intros ->. rewrite receive_text, Hch. reflexivity.
Qed.

End RequestProperties.

(** ** Sending the request *)

Lemma getHeader_setHeader (name : string) (v : HeaderValue)
    (body : option JsString) (r : ClientRequest) :
  getHeader name (end_request body (setHeader name v r)) = Some v.
Proof.
  unfold getHeader, end_request, setHeader. cbn [cr_headers].
  rewrite lookup_insert_eq. reflexivity.
Qed.

Lemma byteLength_nil : byteLength [] = 0.
Proof. reflexivity. Qed.

Lemma byteLength_ascii (s : JsString) :
  Forall (fun u => (u < 128)%N) s -> byteLength s = Z.of_nat (List.length s).
Proof.
  unfold byteLength. intros H. f_equal.
  induction H as [|u s Hu _ IH]; [ reflexivity | ].
  cbn [utf8_encode]. unfold is_high_surrogate, is_low_surrogate, utf8_of_code_point.
  destruct (N.leb_spec 55296 u); [ lia | ].
  destruct (N.leb_spec 56320 u); [ lia | ].
  destruct (N.ltb_spec u 128); [ | lia ].
  cbn. f_equal. exact IH.
Qed.

(** One, two, three and four bytes: [A], e-acute, the euro sign, and a
    surrogate pair; a lone surrogate counts as the replacement
    character. *)
Example byteLength_samples :
  byteLength [65%N] = 1 /\ byteLength [233%N] = 2 /\ byteLength [8364%N] = 3 /\
  byteLength [55357%N; 56832%N] = 4 /\ byteLength [55357%N] = 3 /\
  utf8_encode [55357%N; 56832%N] = [240; 159; 152; 128]%N.
Proof. repeat split. Qed.

(** C6.  A request issued through a connector for [http] or [https]
    carries a [Content-Length] header set by the code itself: the UTF-8
    byte length of the body when there is one, and 0 when the body is
    absent or empty; whatever the host's headers held under that name is
    replaced. *)
Theorem content_length_is_byte_length
    (rt : Runtime) (c : HttpConnector) (p : Params) :
  hand c = HttpModule \/ hand c = HttpsModule ->
  exists st r,
    HttpConnector_request rt c p = Ok st /\
    request st = Some r /\
    getHeader "Content-Length" r
      = Some (HNum (match p_body p with
                    | Some b => byteLength b
                    | None => 0
                    end)) /\
    (text_truthy (p_body p) = false ->
     getHeader "Content-Length" r = Some (HNum 0)) /\
    cr_body r = (if text_truthy (p_body p) then p_body p else None).
Proof.
  intros Hh. unfold HttpConnector_request.
  assert (E : forall A (x y : A),
             match hand c with Inherited _ => x | _ => y end = y)
    by (intros; destruct Hh as [-> | ->]; reflexivity).
  rewrite E. clear E. unfold issue.
  destruct (p_body p) as [[|u s]|]; cbn [text_truthy];
    eexists; eexists; (split; [ reflexivity | ]); cbn [request];
    (split; [ reflexivity | ]); rewrite !getHeader_setHeader;
    repeat split; discriminate.
Qed.

Lemma content_length_is_byte_length_witness :
  exists c st r,
    construct (host_with_protocol "http") None = Ok c /\
    HttpConnector_request sample_runtime c
      (mkParams (Some "POST") (Some "/_search") None None
         (Some [123; 233; 125]%N)) = Ok st /\
    request st = Some r /\
    getHeader "Content-Length" r = Some (HNum 4).
Proof.
  eexists.
  match goal with
  | |- exists st r, ?C = Ok ?c /\ HttpConnector_request ?rt ?c ?p = _ /\ _ =>
      assert (Hc : C = Ok c) by reflexivity;
      destruct (content_length_is_byte_length rt c p (or_introl eq_refl))
        as (st & r & H1 & H2 & H3 & _)
  end.
  exists st, r. repeat split; assumption.
Defined.

(** ** Concrete runs *)

(** C4, as stated, fails: for an error before any response the callback
    gets the error alone, not the four arguments with a zero status and
    empty headers. *)
Lemma early_error_passes_one_argument :
  let st := run sample_runtime get_root sample_reqParams
              (issue None sample_reqParams) [ReqError (VError "socket hang up")] in
  delivered st = [[VError "socket hang up"]] /\
  delivered st <> [[VError "socket hang up"; VUndefined; VNum 0; VObj ∅]].
Proof. split; [ reflexivity | discriminate ]. Qed.

Lemma failed_request_passes_only_the_error_witness :
  delivered (step sample_runtime get_root sample_reqParams
               (issue None sample_reqParams) (ReqError (VError "ECONNRESET")))
    = [[VError "ECONNRESET"]] /\
  delivered (step sample_runtime get_root sample_reqParams
               (step sample_runtime get_root sample_reqParams
                  (issue None sample_reqParams) (Response 200 gzip_headers))
               (StreamError (VError "incorrect header check")))
    = [[VError "incorrect header check"]].
Proof.
  split.
  - exact (proj1 (failed_request_passes_only_the_error sample_runtime get_root
             sample_reqParams (issue None sample_reqParams)
             (VError "ECONNRESET") eq_refl eq_refl) eq_refl).
  - exact (proj2 (failed_request_passes_only_the_error sample_runtime get_root
             sample_reqParams
             (step sample_runtime get_root sample_reqParams
                (issue None sample_reqParams) (Response 200 gzip_headers))
             (VError "incorrect header check") eq_refl eq_refl)
             (mkIncoming true true true) eq_refl eq_refl).
Defined.

(** C5, as stated, fails: a response without [content-encoding] and
    without bytes delivers [undefined], not the empty text its bytes
    decode to. *)
Lemma empty_body_is_delivered_as_undefined :
  let st := receive sample_runtime get_root sample_reqParams
              (issue None sample_reqParams) 200 ∅ [] in
  utf8_decode sample_runtime [] = [] /\
  delivered st = [[VUndefined; VUndefined; VNum 200; VObj ∅]] /\
  delivered st <> [[VUndefined; VStr (utf8_decode sample_runtime []);
                    VNum 200; VObj ∅]].
Proof. repeat split. discriminate. Qed.

Lemma sample_chunked_concat (s : JsString) :
  List.concat (chunked sample_runtime s) = s.
Proof.
  destruct s as [|u s]; [ reflexivity | ].
  cbn. f_equal. apply app_nil_r.
Defined.

Lemma delivered_body_follows_content_encoding_witness :
  is_compressed gzip_headers = true /\
  delivered (receive sample_runtime get_root sample_reqParams
               (issue None sample_reqParams) 200 gzip_headers
               [Byte.x1f; Byte.x6f; Byte.x6b])
    = [[VUndefined; VStr (js "ok"); VNum 200; VObj gzip_headers]] /\
  delivered (receive sample_runtime get_root sample_reqParams
               (issue None sample_reqParams) 200 ∅ [Byte.x6f; Byte.x6b])
    = [[VUndefined; VStr (js "ok"); VNum 200; VObj ∅]].
Proof.
  split; [ reflexivity | split ].
  - exact (proj1 (proj2 (delivered_body_follows_content_encoding sample_runtime
             get_root sample_reqParams None 200 gzip_headers
             [Byte.x1f; Byte.x6f; Byte.x6b] sample_chunked_concat))
             eq_refl [Byte.x6f; Byte.x6b] eq_refl).
  - exact (proj2 (proj2 (delivered_body_follows_content_encoding sample_runtime
             get_root sample_reqParams None 200 ∅
             [Byte.x6f; Byte.x6b] sample_chunked_concat))
             eq_refl).
Defined.



Lemma callback_fires_exactly_once_witness :
  List.length
    (delivered (run sample_runtime get_root sample_reqParams
                  (issue None sample_reqParams)
                  [Response 200 ∅; Data (js "ok");
                   ReqError (VError "socket hang up"); End])) = 1%nat /\
  List.length
    (delivered (run sample_runtime get_root sample_reqParams
                  (issue None sample_reqParams)
                  [Response 200 ∅; Cancel; StreamError (VError "aborted")]))
  = 1%nat.
Proof.
  split.
  - exact (proj2 (callback_fires_exactly_once sample_runtime get_root
                    sample_reqParams None
                    [Response 200 ∅; Data (js "ok");
                     ReqError (VError "socket hang up"); End]) eq_refl).
  - exact (proj2 (callback_fires_exactly_once sample_runtime get_root
                    sample_reqParams None
                    [Response 200 ∅; Cancel; StreamError (VError "aborted")])
             eq_refl).
Defined.

Lemma non_error_yields_success_shape_witness :
  delivered (cleanUp get_root sample_reqParams (VStr (js "oops")) VUndefined
               (issue None sample_reqParams))
    = [[VUndefined; VUndefined; VNum 0; VObj ∅]] /\
  delivered (run sample_runtime get_root sample_reqParams
               (issue None sample_reqParams) [Response 204 ∅; End])
    = [[VUndefined; VUndefined; VNum 204; VObj ∅]].
Proof.
  split.
  - exact (proj1 (non_error_yields_success_shape sample_runtime get_root
             sample_reqParams (issue None sample_reqParams)
             (VStr (js "oops")) VUndefined eq_refl eq_refl)).
  - exact (proj2 (non_error_yields_success_shape sample_runtime get_root
             sample_reqParams
             (step sample_runtime get_root sample_reqParams
                (issue None sample_reqParams) (Response 204 ∅))
             VUndefined VUndefined eq_refl eq_refl)
             (mkIncoming false true true) eq_refl eq_refl eq_refl).
Defined.

(** C8.  The tracing sink is meant to receive the response of the
    attempt, but [cleanUp] passes it the variable [request], which it
    has just set to [null]: for a [GET /] answered with 200 and the text
    [ok], the callback gets the text while the sink gets [null] in its
    place. *)
Theorem trace_receives_null_for_the_response :
  exists c st0,
    construct (host_with_protocol "http") None = Ok c /\
    HttpConnector_request sample_runtime c get_root = Ok st0 /\
    let rp := makeReqParams sample_runtime c (Some get_root) in
    let st := run sample_runtime get_root rp st0
                [Response 200 ∅; Data (js "ok"); End] in
    delivered st = [[VUndefined; VStr (js "ok"); VNum 200; VObj ∅]] /\
    traced st = [mkLogEntry (Some "GET") rp None LogNull 200] /\
    log_response <$> traced st <> [LogText (js "ok")].
Proof.
  eexists. eexists. split; [ reflexivity | ]. split; [ reflexivity | ].
  cbn zeta. repeat split. discriminate.
Qed.

(** * Further properties *)

(** ** What construction decides *)

Lemma handles_cases (key : string) (hd : Hand) :
  handles key = Some hd ->
  (hd = HttpModule /\ key = "http") \/
  (hd = HttpsModule /\ key = "https") \/
  (hd = Inherited key /\ key <> "http" /\ key <> "https").
Proof.
  unfold handles.
  destruct (String.eqb key "http") eqn:E1.
  { apply String.eqb_eq in E1. intros H; inversion H. auto. }
  destruct (String.eqb key "https") eqn:E2.
  { apply String.eqb_eq in E2. intros H; inversion H. auto. }
  apply String.eqb_neq in E1, E2.
  destruct (existsb (String.eqb key) object_prototype_names);
    intros H; inversion H. auto.
Qed.

Lemma construct_shape (h : Host) (config : option Config) (c : HttpConnector) :
  construct h config = Ok c ->
  handles (protocol h) = Some (hand c) /\
  c_host c = h /\
  useSsl c = String.eqb (protocol h) "https" /\
  match given_factory config with
  | Some factory =>
      agent c = factory h (defaults (given_options config)) /\
      statusSetListeners c = []
  | None =>
      createAgent h (hand c) (useSsl c) (defaults (given_options config))
      = Ok (agent c, statusSetListeners c)
  end.
Proof.
  unfold construct.
  change (match config with Some c0 => options c0 | None => no_options end)
    with (given_options config).
  change (match config with Some c0 => createNodeAgent c0 | None => None end)
    with (given_factory config).
  destruct (handles (protocol h)) as [hd|]; [ | discriminate ].
  destruct (given_factory config) as [factory|].
  - intros E; inversion E; subst; cbn. auto.
  - destruct (createAgent h hd _ _) as [[a ls]|e] eqn:Ea; [ | discriminate ].
    intros E; inversion E; subst; cbn. auto.
Qed.

Lemma createAgent_cases (h : Host) (hd : Hand) (ssl_on : bool) (o : PoolOptions)
    (a : Agent) (ls : list Listener) :
  createAgent h hd ssl_on (defaults o) = Ok (a, ls) ->
  if keep_alive_in_effect o
  then ls = [BoundOnStatusSet] /\
       agentClass a = (if ssl_on then KeepAliveHttpsAgent else KeepAliveAgent)
  else ls = [] /\ hand_Agent hd = Some (agentClass a).
Proof.
  unfold createAgent, keep_alive_in_effect. cbn [forever defaults].
  destruct (truthy (forever o)) eqn:Hf; cbn [keepAlive defaults orb].
  - rewrite Hf. intros E; inversion E; subst. split; reflexivity.
  - destruct (truthy (default_to (keepAlive o) (VBool true))).
    + intros E; inversion E; subst. split; reflexivity.
    + destruct (hand_Agent hd); intros E; inversion E; subst.
      split; reflexivity.
Qed.

(** X4.  Without an override, the connector that construction returns
    has the drain listener exactly when keep-alive is in effect (a truthy
    [forever], or a [keepAlive] that is truthy or left undefined), and
    then its agent is the keep-alive class; otherwise it has no listener
    and the agent is the plain class of its protocol module. *)
Theorem listener_follows_keep_alive
    (h : Host) (config : option Config) (c : HttpConnector) :
  construct h config = Ok c ->
  given_factory config = None ->
  if keep_alive_in_effect (given_options config)
  then statusSetListeners c = [BoundOnStatusSet] /\
       agentClass (agent c)
       = (if useSsl c then KeepAliveHttpsAgent else KeepAliveAgent)
  else statusSetListeners c = [] /\
       hand_Agent (hand c) = Some (agentClass (agent c)).
Proof.
  intros Hc Hf. apply construct_shape in Hc as (_ & _ & _ & Hag).
  rewrite Hf in Hag. apply createAgent_cases in Hag. exact Hag.
Qed.

Lemma listener_follows_keep_alive_witness :
  exists c,
    construct (host_with_protocol "https")
      (Some (mkConfig (options_with VNull VUndefined) None)) = Ok c /\
    statusSetListeners c = [] /\
    hand_Agent (hand c) = Some (agentClass (agent c)).
Proof.
  eexists. split; [ reflexivity | ].
  match goal with
  | |- statusSetListeners ?c = _ /\ _ =>
      exact (listener_follows_keep_alive (host_with_protocol "https")
               (Some (mkConfig (options_with VNull VUndefined) None)) c
               eq_refl eq_refl)
  end.
Defined.

(** X3.  A connector is in TLS mode exactly when the host's protocol is
    [https]; built without an override for [http] or [https], its agent
    is one of the two TLS agent classes exactly then. *)
Theorem tls_exactly_for_https
    (h : Host) (config : option Config) (c : HttpConnector) :
  construct h config = Ok c ->
  (useSsl c = true <-> protocol h = "https") /\
  (given_factory config = None ->
   protocol h = "http" \/ protocol h = "https" ->
   (is_tls_agent (agentClass (agent c)) = true <-> protocol h = "https")).
Proof.
  intros Hc. pose proof (construct_shape h config c Hc) as (Hh & _ & Hs & Hag).
  split; [ rewrite Hs; apply String.eqb_eq | ].
  intros Hf Hp. rewrite Hf in Hag. apply createAgent_cases in Hag.
  rewrite <- (String.eqb_eq (protocol h) "https"), <- Hs.
  destruct (keep_alive_in_effect (given_options config)).
  - destruct Hag as [_ ->]. destruct (useSsl c); cbn; intuition congruence.
  - destruct Hag as [_ Hcls].
    apply handles_cases in Hh as [[Hhd Hk] | [[Hhd Hk] | [_ [Hn1 Hn2]]]].
    + rewrite Hhd in Hcls. injection Hcls as Hcl. rewrite <- Hcl, Hs, Hk.
      cbn. intuition congruence.
    + rewrite Hhd in Hcls. injection Hcls as Hcl. rewrite <- Hcl, Hs, Hk.
      cbn. intuition congruence.
    + destruct Hp; contradiction.
Qed.

Lemma tls_exactly_for_https_witness :
  exists c,
    construct (host_with_protocol "https")
      (Some (mkConfig (options_with (VBool false) VUndefined) None)) = Ok c /\
    useSsl c = true /\ is_tls_agent (agentClass (agent c)) = true.
Proof.
  eexists. split; [ reflexivity | ].
  match goal with
  | |- useSsl ?c = _ /\ _ =>
      destruct (tls_exactly_for_https (host_with_protocol "https")
                  (Some (mkConfig (options_with (VBool false) VUndefined) None))
                  c eq_refl) as [H1 H2]
  end.
  split; [ apply H1; reflexivity
         | apply (H2 eq_refl (or_intror eq_refl)); reflexivity ].
Defined.

Lemma default_to_defined (v d : JsVal) :
  d <> VUndefined -> default_to v d <> VUndefined.
Proof. destruct v; cbn; congruence. Qed.

Lemma default_to_again (v d : JsVal) :
  default_to (default_to v d) d = default_to v d.
Proof. destruct v; cbn; try reflexivity. destruct d; reflexivity. Qed.

(** X2.  Filling in the defaults twice changes nothing more; afterwards
    none of the five pool options is undefined; [forever] is left as it
    is; and keep-alive ends up off exactly when the caller gave a
    [keepAlive] that is defined and falsy ([false], [null], [0], an empty
    string), never because it was left out. *)
Theorem defaults_fill_only_undefined (o : PoolOptions) :
  defaults (defaults o) = defaults o /\
  (maxSockets (defaults o) <> VUndefined /\
   keepAlive (defaults o) <> VUndefined /\
   keepAliveInterval (defaults o) <> VUndefined /\
   keepAliveMaxFreeSockets (defaults o) <> VUndefined /\
   keepAliveFreeSocketTimeout (defaults o) <> VUndefined) /\
  forever (defaults o) = forever o /\
  (truthy (keepAlive (defaults o)) = false <->
   keepAlive o <> VUndefined /\ truthy (keepAlive o) = false).
Proof.
  split; [ | split; [ | split ] ].
  - unfold defaults. cbn. rewrite !default_to_again. reflexivity.
  - cbn. repeat split; apply default_to_defined; discriminate.
  - reflexivity.
  - cbn. destruct (keepAlive o); cbn; intuition congruence.
Qed.

(** X6.  For a host whose protocol is not [https], the host's TLS
    options play no part: built without an override, the connector gets
    the same agent and the same listeners whatever those options are,
    and construction fails in the same way if it fails. *)
Theorem plain_host_ignores_tls_options
    (h : Host) (s : option (list (string * JsVal))) (config : option Config) :
  protocol h <> "https" ->
  given_factory config = None ->
  match construct (with_ssl s h) config, construct h config with
  | Ok c1, Ok c2 =>
      agent c1 = agent c2 /\ statusSetListeners c1 = statusSetListeners c2
  | Throw e1, Throw e2 => e1 = e2
  | _, _ => False
  end.
Proof.
  intros Hp Hf. unfold construct.
  change (match config with Some c0 => createNodeAgent c0 | None => None end)
    with (given_factory config).
  rewrite Hf. cbn [with_ssl protocol].
  apply String.eqb_neq in Hp. rewrite Hp.
  destruct (handles (protocol h)) as [hd|]; [ | reflexivity ].
  unfold createAgent, makeAgentConfig.
  match goal with
  | |- context [truthy (keepAlive ?o)] => destruct (truthy (keepAlive o))
  end; [ cbn; auto | ].
  destruct (hand_Agent hd); cbn; auto.
Qed.

Lemma plain_host_ignores_tls_options_witness :
  exists c1 c2,
    construct (with_ssl (Some [("rejectUnauthorized", VBool false)])
                 (host_with_protocol "http")) None = Ok c1 /\
    construct (host_with_protocol "http") None = Ok c2 /\
    agent c1 = agent c2.
Proof.
  eexists. eexists. split; [ reflexivity | ]. split; [ reflexivity | ].
  exact (proj1 (plain_host_ignores_tls_options (host_with_protocol "http")
                  (Some [("rejectUnauthorized", VBool false)]) None
                  ltac:(discriminate) eq_refl)).
Defined.

(** X10.  A connector that construction returned can issue a request
    exactly when its host's protocol is [http] or [https]: a connector
    that slipped through with an inherited property name as protocol
    throws on its first request. *)
Theorem requests_need_a_protocol_module
    (rt : Runtime) (h : Host) (config : option Config) (c : HttpConnector)
    (p : Params) :
  construct h config = Ok c ->
  ((exists st, HttpConnector_request rt c p = Ok st) <->
   (protocol h = "http" \/ protocol h = "https")).
Proof.
  intros Hc. apply construct_shape in Hc as (Hh & _).
  unfold HttpConnector_request.
  apply handles_cases in Hh as [[-> Hk] | [[-> Hk] | [-> [Hn1 Hn2]]]].
  - split; eauto.
  - split; eauto.
  - split; [ intros [st E]; discriminate | intros [E|E]; contradiction ].
Qed.

Lemma requests_need_a_protocol_module_witness :
  exists c,
    construct (host_with_protocol "toString") None = Ok c /\
    HttpConnector_request sample_runtime c get_root
    = Throw (TypeError "this.hand.request is not a function") /\
    ~ (exists st, HttpConnector_request sample_runtime c get_root = Ok st).
Proof.
  eexists. split; [ reflexivity | ]. split; [ reflexivity | ].
  intros H.
  match type of H with
  | exists st, HttpConnector_request ?rt ?c ?p = _ =>
      apply (requests_need_a_protocol_module rt
               (host_with_protocol "toString") None c p eq_refl) in H
  end.
  destruct H as [H|H]; discriminate H.
Defined.

(** ** TLS options in the agent configuration *)

Lemma assoc_get_set_eq {V : Type} (k : string) (v : V) (l : list (string * V)) :
  assoc_get k (assoc_set k v l) = Some v.
Proof.
  induction l as [|[k' v'] l IH]; cbn.
  - rewrite String.eqb_refl. reflexivity.
  - destruct (String.eqb k k') eqn:E; cbn; rewrite E; [ reflexivity | exact IH ].
Qed.

Lemma assoc_get_set_ne {V : Type} (k k' : string) (v : V) (l : list (string * V)) :
  k <> k' -> assoc_get k (assoc_set k' v l) = assoc_get k l.
Proof.
  intros Hne. induction l as [|[k0 v0] l IH]; cbn.
  - apply String.eqb_neq in Hne. rewrite Hne. reflexivity.
  - destruct (String.eqb k' k0) eqn:E; cbn.
    + apply String.eqb_eq in E. subst k0.
      apply String.eqb_neq in Hne. rewrite Hne. reflexivity.
    + destruct (String.eqb k k0); [ reflexivity | exact IH ].
Qed.

Lemma merge_one_other (dst : list (string * JsVal)) (kv : string * JsVal)
    (k : string) :
  k <> fst kv -> assoc_get k (merge_one dst kv) = assoc_get k dst.
Proof.
  intros Hne. unfold merge_one.
  destruct (snd kv); try (apply assoc_get_set_ne; exact Hne).
  destruct (assoc_get (fst kv) dst); [ reflexivity | ].
  apply assoc_get_set_ne; exact Hne.
Qed.

Lemma merge_one_defined (dst : list (string * JsVal)) (kv : string * JsVal) :
  snd kv <> VUndefined ->
  assoc_get (fst kv) (merge_one dst kv) = Some (snd kv).
Proof.
  intros Hv. unfold merge_one.
  destruct (snd kv); try apply assoc_get_set_eq. contradiction.
Qed.

Lemma merge_one_keeps (dst : list (string * JsVal)) (kv : string * JsVal)
    (k : string) :
  assoc_get k dst <> None -> assoc_get k (merge_one dst kv) <> None.
Proof.
  intros H. destruct (String.eqb_spec k (fst kv)) as [->|Hne].
  - unfold merge_one.
    destruct (snd kv); try (rewrite assoc_get_set_eq; discriminate).
    destruct (assoc_get (fst kv) dst) eqn:E; [ rewrite E; discriminate | ].
    contradiction.
  - rewrite merge_one_other by exact Hne. exact H.
Qed.

Lemma merge_keeps (s : list (string * JsVal)) (k : string) :
  forall dst, assoc_get k dst <> None ->
              assoc_get k (fold_left merge_one s dst) <> None.
Proof.
  induction s as [|kv s IH]; intros dst H; [ exact H | ].
  cbn. apply IH, merge_one_keeps, H.
Qed.

Lemma merge_untouched (s : list (string * JsVal)) (k : string) :
  ~ In k (List.map fst s) ->
  forall dst, assoc_get k (fold_left merge_one s dst) = assoc_get k dst.
Proof.
  induction s as [|kv s IH]; intros Hk dst; [ reflexivity | ].
  cbn in *. rewrite IH by tauto. apply merge_one_other.
  intros E. apply Hk. left. symmetry. exact E.
Qed.

Lemma merge_delivers (s : list (string * JsVal)) (k : string) (v : JsVal) :
  List.NoDup (List.map fst s) ->
  In (k, v) s ->
  v <> VUndefined ->
  forall dst, assoc_get k (fold_left merge_one s dst) = Some v.
Proof.
  induction s as [|kv s IH]; intros Hnd Hin Hv dst; [ destruct Hin | ].
  cbn in Hnd. inversion Hnd as [|k0 ks Hk0 Hnd']; subst.
  destruct Hin as [->|Hin].
  - cbn [fold_left]. cbn [fst] in Hk0. rewrite merge_untouched by exact Hk0.
    apply (merge_one_defined dst (k, v)). exact Hv.
  - cbn [fold_left]. apply IH; assumption.
Qed.

(** X7.  For an [https] host built without an override, every TLS
    option of the host that has a defined value reaches the agent's
    configuration under its own name, and the five pool settings are all
    still present there. *)
Theorem tls_options_reach_the_agent
    (h : Host) (config : option Config) (s : list (string * JsVal))
    (k : string) (v : JsVal) :
  protocol h = "https" ->
  given_factory config = None ->
  ssl h = Some s ->
  List.NoDup (List.map fst s) ->
  In (k, v) s ->
  v <> VUndefined ->
  exists c,
    construct h config = Ok c /\
    assoc_get k (agentConfig (agent c)) = Some v /\
    forall name, In name agent_config_names ->
                 assoc_get name (agentConfig (agent c)) <> None.
Proof.
  intros Hp Hf Hs Hnd Hin Hv. unfold construct.
  change (match config with Some c0 => createNodeAgent c0 | None => None end)
    with (given_factory config).
  rewrite Hf, Hp. cbn [handles String.eqb Ascii.eqb Bool.eqb].
  unfold createAgent. cbn [hand_Agent].
  match goal with
  | |- context [truthy (keepAlive ?o)] => destruct (truthy (keepAlive o))
  end;
    (eexists; split; [ reflexivity | ]);
    cbn [agent agentConfig new_Agent]; unfold makeAgentConfig, merge;
    rewrite Hs;
    (split; [ apply merge_delivers; assumption | ]);
    intros name Hn; apply merge_keeps;
    cbn in Hn; repeat (destruct Hn as [<-|Hn]; [ discriminate | ]);
    destruct Hn.
Qed.

Lemma tls_options_reach_the_agent_witness :
  exists c,
    construct (with_ssl (Some [("rejectUnauthorized", VBool false);
                                ("maxSockets", VNum 5)])
                 (host_with_protocol "https")) None = Ok c /\
    assoc_get "rejectUnauthorized" (agentConfig (agent c)) = Some (VBool false) /\
    assoc_get "keepAliveMsecs" (agentConfig (agent c)) <> None.
Proof.
  destruct (tls_options_reach_the_agent
              (with_ssl (Some [("rejectUnauthorized", VBool false);
                               ("maxSockets", VNum 5)])
                 (host_with_protocol "https")) None
              [("rejectUnauthorized", VBool false); ("maxSockets", VNum 5)]
              "rejectUnauthorized" (VBool false) eq_refl eq_refl eq_refl)
    as (c & Hc & Hk & Hn).
  - repeat constructor; cbn; intuition discriminate.
  - left. reflexivity.
  - discriminate.
  - exists c. split; [ exact Hc | ]. split; [ exact Hk | ].
    apply Hn. cbn. auto.
Defined.

(** ** More on draining *)

Lemma listeners_other_status (status : string) (ls : list Listener) (w : PoolWorld) :
  status <> "closed" ->
  fold_left (fun w l => run_listener l status w) ls w = w.
Proof.
  intros Hs. induction ls as [|[] ls IH]; [ reflexivity | ].
  cbn [fold_left run_listener]. rewrite onStatusSet_other by exact Hs. exact IH.
Qed.

(** X9.  A status other than ["closed"] leaves the connector, its pool
    with every socket in it, and the list of destroyed sockets exactly as
    they were, whether or not the drain listener is registered. *)
Theorem other_status_is_ignored
    (c : HttpConnector) (status : string) (d : list Socket) :
  status <> "closed" ->
  notifyStatus c status d = (c, d).
Proof.
  intros Hs. unfold notifyStatus.
  rewrite listeners_other_status by exact Hs.
  destruct c; reflexivity.
Qed.

Lemma other_status_is_ignored_witness :
  exists c,
    construct (host_with_protocol "http") None = Ok c /\
    statusSetListeners c = [BoundOnStatusSet] /\
    notifyStatus (pool_holding c [("localhost:9200:", [Some 1%nat])] []) "dead" []
    = (pool_holding c [("localhost:9200:", [Some 1%nat])] [], []).
Proof.
  eexists. split; [ reflexivity | ]. split; [ reflexivity | ].
  apply other_status_is_ignored. discriminate.
Defined.

(** ** The request parameters *)

Lemma prefix_empty (b : string) : String.prefix "" b = true.
Proof. destruct b; reflexivity. Qed.

Lemma prefix_append (a b : string) : String.prefix a (a +:+ b) = true.
Proof.
  induction a as [|x a IH]; [ apply prefix_empty | ].
  simpl. destruct (ascii_dec x x); [ exact IH | contradiction ].
Qed.

Lemma prefix_append_append (a b c : string) :
  String.prefix a ((a +:+ b) +:+ c) = true.
Proof.
  induction a as [|x a IH]; [ apply prefix_empty | ].
  simpl. destruct (ascii_dec x x); [ exact IH | contradiction ].
Qed.

Lemma append_empty_left (a b : string) : a +:+ b = "" -> a = "".
Proof. destruct a; [ reflexivity | discriminate ]. Qed.

Lemma append_nonempty (a b : string) : a <> "" -> a +:+ b <> "".
Proof. intros Ha E. apply Ha, (append_empty_left a b E). Qed.

Lemma str_or_nonempty (s : option string) (d : string) :
  d <> "" -> str_or s d <> "".
Proof. destruct s as [[|x r]|]; cbn; auto; discriminate. Qed.

(** X1.  Whatever the host and the request parameters are, also when
    the parameters are left out, the request parameters name a method
    and a path that are not empty; the path begins with the host's base
    path, and with a slash when neither the host nor the request gives a
    path. *)
Theorem reqParams_method_and_path
    (rt : Runtime) (c : HttpConnector) (p : option Params) :
  let rp := makeReqParams rt c p in
  let given := match p with Some p => p | None => no_params end in
  rp_method rp <> "" /\
  rp_path rp <> "" /\
  String.prefix (str_or (path (c_host c)) "") (rp_path rp) = true /\
  (str_or (path (c_host c)) "" +:+ str_or (p_path given) "" = "" ->
   String.prefix "/" (rp_path rp) = true).
Proof.
  cbn zeta. unfold makeReqParams. cbn [rp_method rp_path].
  set (given := match p with Some p0 => p0 | None => no_params end).
  set (base := str_or (path (c_host c)) "").
  set (rest := str_or (p_path given) "").
  split; [ apply str_or_nonempty; discriminate | ].
  destruct (base +:+ rest) as [|x r] eqn:E.
  - apply append_empty_left in E as Hb. rewrite Hb.
    destruct (getQuery (c_host c) (p_query given)); repeat split;
      try discriminate; reflexivity.
  - rewrite <- E.
    assert (Hne : base +:+ rest <> "") by (rewrite E; discriminate).
    destruct (getQuery (c_host c) (p_query given)).
    + repeat split.
      * apply append_nonempty. exact Hne.
      * apply prefix_append_append.
      * intros H. contradiction.
    + repeat split.
      * exact Hne.
      * apply prefix_append.
      * intros H. contradiction.
Qed.

(** ** The request as it is sent *)

Lemma fold_setHeader_keeps (l : list (string * string)) :
  forall r,
    let r' := fold_left (fun r kv => setHeader (fst kv) (HStr (snd kv)) r) l r in
    cr_options r' = cr_options r /\ cr_noDelay r' = cr_noDelay r /\
    cr_socketKeepAlive r' = cr_socketKeepAlive r /\ cr_ended r' = cr_ended r /\
    cr_body r' = cr_body r /\ cr_aborted r' = cr_aborted r.
Proof.
  induction l as [|kv l IH]; intros r; cbn zeta; [ repeat split | ].
  cbn [fold_left]. destruct (IH (setHeader (fst kv) (HStr (snd kv)) r))
    as (H1 & H2 & H3 & H4 & H5 & H6).
  repeat split; assumption.
Qed.

(** X11.  A request issued through an [http] or [https] connector
    returns with the transaction built from the request parameters,
    no-delay and socket keep-alive switched on, the request ended and not
    aborted; the status is still 0 and the headers empty, and neither the
    callback nor the tracing sink nor [abort] has been called. *)
Theorem issued_request_is_configured
    (rt : Runtime) (c : HttpConnector) (p : Params) :
  hand c = HttpModule \/ hand c = HttpsModule ->
  exists st r,
    HttpConnector_request rt c p = Ok st /\
    request st = Some r /\
    cr_options r = makeReqParams rt c (Some p) /\
    cr_noDelay r = true /\ cr_socketKeepAlive r = true /\
    cr_ended r = true /\ cr_aborted r = false /\
    status st = 0 /\ headers st = ∅ /\
    delivered st = [] /\ traced st = [] /\ aborts st = 0%nat.
Proof.
  intros Hh. unfold HttpConnector_request.
  set (rp := makeReqParams rt c (Some p)).
  assert (E : forall A (x y : A),
             match hand c with Inherited _ => x | _ => y end = y)
    by (intros; destruct Hh as [-> | ->]; reflexivity).
  rewrite E. clear E. unfold issue.
  destruct (fold_setHeader_keeps (rp_headers rp)
              (mkClientRequest rp ∅ false false false None false))
    as (H1 & _ & _ & _ & _ & H6).
  fold (new_ClientRequest rp) in H1, H6. cbn in H1, H6.
  destruct (text_truthy (p_body p));
    (eexists; eexists; split; [ reflexivity | ]; cbn [request];
     split; [ reflexivity | ];
     repeat split; assumption).
Qed.

Lemma issued_request_is_configured_witness :
  exists c st r,
    construct (mkHost "https" "es.local" 9243 (Some "/base") None
                 (fun _ => [("Authorization", "Basic abc")])
                 (fun _ => None)) None = Ok c /\
    HttpConnector_request sample_runtime c get_root = Ok st /\
    request st = Some r /\
    cr_noDelay r = true /\ cr_socketKeepAlive r = true /\ cr_ended r = true /\
    rp_path (cr_options r) = "/base/".
Proof.
  eexists.
  match goal with
  | |- exists st r, ?C = Ok ?c /\ HttpConnector_request ?rt ?c ?p = _ /\ _ =>
      assert (Hc : C = Ok c) by reflexivity;
      destruct (issued_request_is_configured rt c p (or_intror eq_refl))
        as (st & r & H1 & H2 & H3 & H4 & H5 & H6 & _)
  end.
  exists st, r. split; [ exact Hc | ]. split; [ exact H1 | ].
  split; [ exact H2 | ]. split; [ exact H4 | ]. split; [ exact H5 | ].
  split; [ exact H6 | ]. rewrite H3. reflexivity.
Defined.

(** ** The size of Content-Length *)

Lemma utf8_of_code_point_length (cp : N) :
  (cp < 65536)%N ->
  (1 <= List.length (utf8_of_code_point cp) <= 3)%nat.
Proof.
  intros H. unfold utf8_of_code_point.
  destruct (N.ltb_spec cp 128); [ cbn; lia | ].
  destruct (N.ltb_spec cp 2048); [ cbn; lia | ].
  destruct (N.ltb_spec cp 65536); [ cbn; lia | lia ].
Qed.

Lemma utf8_of_pair_length (u l : N) :
  List.length (utf8_of_code_point (65536 + (u - 55296) * 1024 + (l - 56320))%N)
  = 4%nat.
Proof.
  unfold utf8_of_code_point.
  destruct (N.ltb_spec (65536 + (u - 55296) * 1024 + (l - 56320)) 128); [ lia | ].
  destruct (N.ltb_spec (65536 + (u - 55296) * 1024 + (l - 56320)) 2048); [ lia | ].
  destruct (N.ltb_spec (65536 + (u - 55296) * 1024 + (l - 56320)) 65536); [ lia | ].
  reflexivity.
Qed.

Lemma utf8_encode_length_bounds (n : nat) :
  forall s : JsString,
    (List.length s <= n)%nat ->
    Forall (fun u => (u < 65536)%N) s ->
    (List.length s <= List.length (utf8_encode s) <= 3 * List.length s)%nat.
Proof.
  induction n as [|n IH]; intros s Hn Hs.
  - destruct s; [ cbn; lia | cbn in Hn; lia ].
  - destruct s as [|u rest]; [ cbn; lia | ].
    inversion Hs as [|? ? Hu Hrest]; subst. cbn in Hn.
    assert (Hr : (List.length rest <= List.length (utf8_encode rest)
                  <= 3 * List.length rest)%nat) by (apply IH; [ lia | exact Hrest ]).
    pose proof (utf8_of_code_point_length u Hu) as Hcp.
    cbn [utf8_encode].
    destruct (is_high_surrogate u).
    + destruct rest as [|l rest']; [ cbn; lia | ].
      destruct (is_low_surrogate l).
      * inversion Hrest as [|? ? _ Hrest']; subst. cbn in Hn.
        assert (Hr' : (List.length rest' <= List.length (utf8_encode rest')
                       <= 3 * List.length rest')%nat)
          by (apply IH; [ lia | exact Hrest' ]).
        rewrite List.length_app, utf8_of_pair_length. cbn [List.length]. lia.
      * rewrite List.length_app. cbn [List.length replacement_character] in *. lia.
    + destruct (is_low_surrogate u).
      * rewrite List.length_app. cbn [List.length replacement_character] in *. lia.
      * rewrite List.length_app. cbn [List.length] in *. lia.
Qed.

(** X12.  For a body of 16-bit code units, the [Content-Length] a
    request carries lies between the number of code units of the body
    and three times that number, and it is that number itself when every
    code unit is below 128. *)
Theorem content_length_bounds
    (rt : Runtime) (c : HttpConnector) (p : Params) (b : JsString) :
  hand c = HttpModule \/ hand c = HttpsModule ->
  p_body p = Some b ->
  Forall (fun u => (u < 65536)%N) b ->
  exists st r n,
    HttpConnector_request rt c p = Ok st /\
    request st = Some r /\
    getHeader "Content-Length" r = Some (HNum n) /\
    Z.of_nat (List.length b) <= n <= 3 * Z.of_nat (List.length b) /\
    (Forall (fun u => (u < 128)%N) b -> n = Z.of_nat (List.length b)).
Proof.
  intros Hh Hb Hu. unfold HttpConnector_request.
  assert (E : forall A (x y : A),
             match hand c with Inherited _ => x | _ => y end = y)
    by (intros; destruct Hh as [-> | ->]; reflexivity).
  rewrite E. clear E. unfold issue. rewrite Hb.
  pose proof (utf8_encode_length_bounds (List.length b) b (le_n _) Hu) as Hlen.
  destruct b as [|u s]; cbn [text_truthy].
  - eexists; eexists; exists 0. split; [ reflexivity | ].
    split; [ reflexivity | ]. rewrite getHeader_setHeader.
    split; [ reflexivity | ]. cbn. split; [ lia | reflexivity ].
  - eexists; eexists; exists (byteLength (u :: s)). split; [ reflexivity | ].
    split; [ reflexivity | ]. rewrite getHeader_setHeader.
    split; [ reflexivity | ]. split; [ unfold byteLength; lia | ].
    apply byteLength_ascii.
Qed.

Lemma content_length_bounds_witness :
  exists c st r n,
    construct (host_with_protocol "http") None = Ok c /\
    HttpConnector_request sample_runtime c
      (mkParams (Some "PUT") (Some "/doc/1") None None
         (Some [8364; 55357; 56832; 97]%N)) = Ok st /\
    request st = Some r /\
    getHeader "Content-Length" r = Some (HNum n) /\
    4 <= n <= 12.
Proof.
  eexists.
  match goal with
  | |- exists st r n, ?C = Ok ?c /\ HttpConnector_request ?rt ?c ?p = _ /\ _ =>
      assert (Hc : C = Ok c) by reflexivity;
      destruct (content_length_bounds rt c p [8364; 55357; 56832; 97]%N
                  (or_introl eq_refl) eq_refl)
        as (st & r & n & H1 & H2 & H3 & H4 & _)
  end.
  - repeat constructor.
  - exists st, r, n. repeat split; try assumption; cbn in H4; lia.
Defined.

(** ** More on one request *)

Section MoreRequestProperties.

Variable rt : Runtime.
Variable params : Params.
Variable reqParams : ReqParams.

Local Abbreviation cleanUp' := (cleanUp params reqParams).
Local Abbreviation step' := (step rt params reqParams).
Local Abbreviation run' := (run rt params reqParams).

Lemma cleanUp_effect (err response_arg : JsVal) (st : ReqState) :
  let st' := cleanUp' err response_arg st in
  status st' = status st /\ headers st' = headers st /\
  incoming st' = incoming st /\ response st' = response st /\
  List.length (traced st') = S (List.length (traced st)) /\
  (requestOnError st' = true -> requestOnError st = true) /\
  (List.length (delivered st) <= List.length (delivered st')
   <= S (List.length (delivered st)))%nat.
Proof.
  destruct st as [rq s h rs re i sp dl tr ab]. unfold cleanUp.
  destruct err, rq, sp; cbn; rewrite ?List.length_app; cbn;
    repeat split; auto; try lia; discriminate.
Qed.

Lemma run_spent (evs : list Event) :
  forall st, cbSpent st = true -> delivered (run' st evs) = delivered st.
Proof.
  induction evs as [|ev evs IH]; intros st Hs; [ reflexivity | ].
  destruct (step_spent rt params reqParams st ev Hs) as [H1 H2].
  change (run' st (ev :: evs)) with (run' (step' st ev) evs).
  rewrite IH by exact H1. exact H2.
Qed.

(** X13.  Once the events of a request hold a terminal signal, the call
    its callback received is final: whatever arrives afterwards, further
    errors, data, an end or a cancellation, adds no call and changes no
    argument of the one that was made. *)
Theorem first_signal_decides
    (body : option JsString) (evs later : list Event) :
  signalled false evs = true ->
  delivered (run' (issue body reqParams) (evs ++ later))
  = delivered (run' (issue body reqParams) evs).
Proof.
  intros Hsig. unfold run. rewrite fold_left_app.
  apply run_spent.
  destruct (run_consistent rt params reqParams evs (issue body reqParams)
              (pending_consistent _ (issue_pending body reqParams)))
    as [_ Hs].
  unfold run in Hs. rewrite Hs. cbn [issue cbSpent orb].
  exact Hsig.
Qed.

Lemma step_keeps_response (st : ReqState) (ev : Event) :
  responded st = true ->
  responded (step' st ev) = true /\
  status (step' st ev) = status st /\ headers (step' st ev) = headers st.
Proof.
  unfold responded. intros Hr.
  destruct (incoming st) as [i|] eqn:Hi; [ clear Hr | discriminate ].
  destruct ev; cbn [step]; rewrite ?Hi.
  - destruct (requestOnError st); [ | rewrite ?Hi; auto ].
    match goal with
    | |- context [cleanUp _ _ ?e ?r ?s] =>
        destruct (cleanUp_effect e r s) as (H1 & H2 & H3 & _)
    end.
    rewrite H1, H2, H3. cbn. rewrite ?Hi. auto.
  - rewrite ?Hi. auto.
  - cbn. rewrite ?Hi. auto.
  - destruct (onError i); [ | rewrite ?Hi; auto ].
    match goal with
    | |- context [cleanUp _ _ ?e ?r ?s] =>
        destruct (cleanUp_effect e r s) as (H1 & H2 & H3 & _)
    end.
    rewrite H1, H2, H3. cbn. auto.
  - destruct (onEnd i); [ | rewrite ?Hi; auto ].
    match goal with
    | |- context [cleanUp _ _ ?e ?r ?s] =>
        destruct (cleanUp_effect e r s) as (H1 & H2 & H3 & _)
    end.
    rewrite H1, H2, H3. cbn. auto.
  - unfold cancel. destruct (request st); cbn; rewrite ?Hi; auto.
Qed.

Lemma run_keeps_response (evs : list Event) :
  forall st, responded st = true ->
             status (run' st evs) = status st /\
             headers (run' st evs) = headers st.
Proof.
  induction evs as [|ev evs IH]; intros st Hr; [ split; reflexivity | ].
  destruct (step_keeps_response st ev Hr) as (Hr' & Hs & Hh).
  change (run' st (ev :: evs)) with (run' (step' st ev) evs).
  destruct (IH _ Hr') as [-> ->]. auto.
Qed.

Lemma run_before_response (evs : list Event) :
  forall st, forallb (fun ev => negb (is_response ev)) evs = true ->
             incoming st = None ->
             incoming (run' st evs) = None.
Proof.
  induction evs as [|ev evs IH]; intros st Hn Hi; [ exact Hi | ].
  cbn in Hn. apply andb_prop in Hn as [Hev Hn].
  change (run' st (ev :: evs)) with (run' (step' st ev) evs).
  apply IH; [ exact Hn | ].
  destruct ev; cbn [step]; rewrite ?Hi; try reflexivity; try exact Hi;
    try discriminate.
  - destruct (requestOnError st); [ | exact Hi ].
    match goal with
    | |- context [cleanUp _ _ ?e ?r ?s] =>
        destruct (cleanUp_effect e r s) as (_ & _ & H3 & _)
    end.
    rewrite H3. reflexivity.
  - unfold cancel. destruct (request st); [ exact Hi | exact Hi ].
Qed.

(** X14.  The status code and the headers of a request are those of the
    first response event; nothing that arrives later, a second response
    event included, changes them. *)
Theorem first_response_fixes_status_and_headers
    (body : option JsString) (before : list Event) (code : Z) (h : Headers)
    (later : list Event) :
  forallb (fun ev => negb (is_response ev)) before = true ->
  let st := run' (issue body reqParams) (before ++ Response code h :: later) in
  status st = code /\ headers st = h.
Proof.
  intros Hn. cbn zeta. unfold run. rewrite fold_left_app. cbn [fold_left].
  pose proof (run_before_response before (issue body reqParams) Hn eq_refl) as Hi.
  unfold run in Hi. cbn [step]. rewrite Hi.
  apply (run_keeps_response later). reflexivity.
Qed.

(** X15.  When the listened stream fails with an [Error] after part of
    the text has arrived, the text is dropped: the callback receives the
    error alone. *)
Theorem stream_error_discards_partial_text
    (body : option JsString) (code : Z) (h : Headers) (ds : list JsString)
    (e : JsVal) :
  instanceof_Error e = true ->
  delivered (run' (issue body reqParams)
               (Response code h :: List.map Data ds ++ [StreamError e]))
  = [[e]].
Proof.
  intros He.
  change (run' (issue body reqParams)
            (Response code h :: List.map Data ds ++ [StreamError e]))
    with (run' (step' (issue body reqParams) (Response code h))
            (List.map Data ds ++ [StreamError e])).
  unfold run. rewrite fold_left_app.
  fold (run' (step' (issue body reqParams) (Response code h)) (List.map Data ds)).
  rewrite (run_data rt params reqParams) by reflexivity.
  cbn [fold_left step issue on_response on_data incoming onError].
  match goal with
  | |- context [cleanUp _ _ ?err ?r ?s] =>
      destruct (cleanUp_first params reqParams err r s eq_refl) as [_ ->]
  end.
  unfold cleanUp_args. rewrite He. reflexivity.
Qed.

Lemma step_counts (st : ReqState) (ev : Event) :
  (List.length (traced st) + listeners_left st <= 3)%nat ->
  (List.length (delivered st) <= List.length (traced st))%nat ->
  (List.length (traced (step' st ev)) + listeners_left (step' st ev) <= 3)%nat /\
  (List.length (delivered (step' st ev)) <= List.length (traced (step' st ev)))%nat.
Proof.
  intros H3 Hd. unfold listeners_left in *.
  destruct ev; cbn [step].
  - destruct (requestOnError st) eqn:Hre; [ | rewrite Hre; auto ].
    match goal with
    | |- context [cleanUp _ _ ?e ?r ?s] =>
        destruct (cleanUp_effect e r s) as (_ & _ & Hi & _ & Ht & Hr & Hdl)
    end.
    cbn [set_listeners requestOnError incoming traced delivered] in *.
    rewrite Hi, Ht.
    destruct (requestOnError (cleanUp' e VUndefined
                (set_listeners false (incoming st) st)));
      [ specialize (Hr eq_refl); discriminate | ].
    split; lia.
  - destruct (incoming st) eqn:Hi; [ rewrite Hi; auto | ]. cbn. auto.
  - destruct (incoming st) eqn:Hi; [ cbn; rewrite Hi; auto | rewrite Hi; auto ].
  - destruct (incoming st) as [i|] eqn:Hi; [ | rewrite Hi; auto ].
    destruct (onError i) eqn:Hon; [ | rewrite Hi, Hon; auto ].
    match goal with
    | |- context [cleanUp _ _ ?e ?r ?s] =>
        destruct (cleanUp_effect e r s) as (_ & _ & Hi' & _ & Ht & Hr & Hdl)
    end.
    cbn [set_listeners requestOnError incoming traced delivered] in *.
    rewrite Hi', Ht. cbn [onError onEnd].
    match goal with
    | |- context [requestOnError ?s] =>
        destruct (requestOnError s);
          [ rewrite (Hr eq_refl) in H3 | destruct (requestOnError st) ]
    end; split; lia.
  - destruct (incoming st) as [i|] eqn:Hi; [ | rewrite Hi; auto ].
    destruct (onEnd i) eqn:Hon; [ | rewrite Hi, Hon; auto ].
    match goal with
    | |- context [cleanUp _ _ ?e ?r ?s] =>
        destruct (cleanUp_effect e r s) as (_ & _ & Hi' & _ & Ht & Hr & Hdl)
    end.
    cbn [set_listeners requestOnError incoming traced delivered] in *.
    rewrite Hi', Ht. cbn [onError onEnd].
    match goal with
    | |- context [requestOnError ?s] =>
        destruct (requestOnError s);
          [ rewrite (Hr eq_refl) in H3 | destruct (requestOnError st) ]
    end; destruct (onError i); split; lia.
  - unfold cancel. destruct (request st); cbn; auto.
Qed.

(** X16.  For one request the tracing sink is called at most three
    times, once for each of the three listeners that lead to [cleanUp],
    and never fewer times than the callback. *)
Theorem trace_calls_are_bounded (body : option JsString) (evs : list Event) :
  let st := run' (issue body reqParams) evs in
  (List.length (delivered st) <= List.length (traced st) <= 3)%nat.
Proof.
  cbn zeta.
  assert (H : forall evs st,
             (List.length (traced st) + listeners_left st <= 3)%nat ->
             (List.length (delivered st) <= List.length (traced st))%nat ->
             (List.length (delivered (run' st evs))
              <= List.length (traced (run' st evs)) <= 3)%nat).
  { clear evs. induction evs as [|ev evs IH]; intros st H3 Hd.
    - cbn. lia.
    - destruct (step_counts st ev H3 Hd) as [H3' Hd'].
      change (run' st (ev :: evs)) with (run' (step' st ev) evs).
      apply IH; assumption. }
  apply H; cbn; lia.
Qed.

End MoreRequestProperties.

Lemma first_signal_decides_witness :
  delivered (run sample_runtime get_root sample_reqParams
               (issue None sample_reqParams)
               ([Response 200 ∅; Data (js "ok"); End]
                ++ [StreamError (VError "aborted"); Data (js "late"); Cancel]))
  = [[VUndefined; VStr (js "ok"); VNum 200; VObj ∅]].
Proof.
  rewrite (first_signal_decides sample_runtime get_root sample_reqParams None
             [Response 200 ∅; Data (js "ok"); End]
             [StreamError (VError "aborted"); Data (js "late"); Cancel] eq_refl).
  reflexivity.
Defined.

Lemma first_response_fixes_status_and_headers_witness :
  let st := run sample_runtime get_root sample_reqParams
              (issue None sample_reqParams)
              ([Data (js "stray")]
               ++ Response 404 gzip_headers
                  :: [Data (js "x"); Response 200 ∅; End]) in
  status st = 404 /\ headers st = gzip_headers.
Proof.
  exact (first_response_fixes_status_and_headers sample_runtime get_root
           sample_reqParams None [Data (js "stray")] 404 gzip_headers
           [Data (js "x"); Response 200 ∅; End] eq_refl).
Defined.

Lemma stream_error_discards_partial_text_witness :
  delivered (run sample_runtime get_root sample_reqParams
               (issue None sample_reqParams)
               (Response 200 gzip_headers
                :: List.map Data [js "par"; js "tial"]
                   ++ [StreamError (VError "unexpected end of file")]))
  = [[VError "unexpected end of file"]].
Proof.
  exact (stream_error_discards_partial_text sample_runtime get_root
           sample_reqParams None 200 gzip_headers [js "par"; js "tial"]
           (VError "unexpected end of file") eq_refl).
Defined.

(** The bound of three is reached: an error on the request, then a
    response whose stream both fails and ends. *)
Example trace_called_three_times :
  let st := run sample_runtime get_root sample_reqParams
              (issue None sample_reqParams)
              [ReqError (VError "EPIPE"); Response 200 ∅;
               StreamError (VError "aborted"); End] in
  List.length (traced st) = 3%nat /\ List.length (delivered st) = 1%nat.
Proof. split; reflexivity. Qed.

(** ** When construction throws *)

Lemma createAgent_throws (h : Host) (hd : Hand) (ssl_on : bool) (o : PoolOptions)
    (e : JsError) :
  createAgent h hd ssl_on (defaults o) = Throw e <->
  keep_alive_in_effect o = false /\ hand_Agent hd = None /\
  e = TypeError "Agent is not a constructor".
Proof.
  unfold createAgent, keep_alive_in_effect. cbn [forever defaults].
  destruct (truthy (forever o)) eqn:Hf; cbn [keepAlive defaults orb].
  - rewrite Hf. split; [ discriminate | intros (H & _); discriminate ].
  - destruct (truthy (default_to (keepAlive o) (VBool true)));
      [ split; [ discriminate | intros (H & _); discriminate ] | ].
    destruct (hand_Agent hd).
    + split; [ discriminate | intros (_ & H & _); discriminate ].
    + split; [ intros E; inversion E; auto | intros (_ & _ & ->); reflexivity ].
Qed.

(** X17.  Without an override, construction throws in exactly two
    situations: the protocol is no key of the table, own or inherited,
    and the error reports the invalid protocol; or the protocol is an
    inherited property name and keep-alive is off, and the error is
    that of calling [new] on an undefined agent class. *)
Theorem construct_throws_exactly
    (h : Host) (config : option Config) (e : JsError) :
  given_factory config = None ->
  (construct h config = Throw e <->
   (handles (protocol h) = None /\
    e = TypeError ("Invalid protocol " +:+ dquote +:+ protocol h +:+ dquote
                   +:+ ", expected one of http, https")) \/
   (handles (protocol h) = Some (Inherited (protocol h)) /\
    keep_alive_in_effect (given_options config) = false /\
    e = TypeError "Agent is not a constructor")).
Proof.
  intros Hf. unfold construct.
  change (match config with Some c0 => options c0 | None => no_options end)
    with (given_options config).
  change (match config with Some c0 => createNodeAgent c0 | None => None end)
    with (given_factory config).
  rewrite Hf.
  destruct (handles (protocol h)) as [hd|] eqn:Hh.
  - destruct (createAgent h hd _ _) as [[a ls]|e'] eqn:Ea.
    + split; [ discriminate | ].
      intros [[H _] | (Hi & Hk & He)]; [ discriminate | ].
      injection Hi as ->.
      pose proof (proj2 (createAgent_throws h (Inherited (protocol h))
                           (String.eqb (protocol h) "https")
                           (given_options config) e)
                    (conj Hk (conj eq_refl He))) as Hno.
      rewrite Ea in Hno. discriminate Hno.
    + destruct (proj1 (createAgent_throws h _ _ _ e') Ea) as (Hk & Hn & He).
      split.
      * intros E. injection E as <-. right.
        apply handles_cases in Hh as [[-> _] | [[-> _] | [-> _]]];
          try discriminate. auto.
      * intros [[H _] | (_ & _ & ->)]; [ discriminate | ].
        rewrite He. reflexivity.
  - split.
    + intros E. injection E as <-. left. auto.
    + intros [[_ ->] | (H & _)]; [ reflexivity | discriminate ].
Qed.

Lemma construct_throws_exactly_witness :
  construct (host_with_protocol "valueOf")
    (Some (mkConfig (options_with VNull VUndefined) None))
  = Throw (TypeError "Agent is not a constructor") /\
  construct (host_with_protocol "gopher") None
  = Throw (TypeError ("Invalid protocol " +:+ dquote +:+ "gopher" +:+ dquote
                      +:+ ", expected one of http, https")).
Proof.
  split.
  - apply (construct_throws_exactly (host_with_protocol "valueOf")
             (Some (mkConfig (options_with VNull VUndefined) None)) _ eq_refl).
    right. repeat split.
  - apply (construct_throws_exactly (host_with_protocol "gopher") None _ eq_refl).
    left. repeat split.
Defined.
